(** * Worker-log visualisation ([contrib/worker-visualization/log_to_html.py])

    A shallow embedding of the trace reconstruction and rendering
    pipeline: the cell renderer [html_for_message], the timeline aligner
    and table renderer [html_dict_to_html_table], the topology grapher
    [visualize] and the driver [main].

    Conventions of the embedding.
    - A Python [dict] keeps insertion order; it is an association list
      with the operations of section [Dict] ([d[k]], [d[k] = v],
      [d.setdefault(k, v)]).  A parsed JSON object has pairwise distinct
      keys; theorems that depend on it assume [NoDup (dict_keys d)].
    - An exception is a value of [exn]; code that can raise returns
      [result A].
    - An [Airium] builder is kept as the tree it builds ([doc]); the
      concrete serialisation of [str(builder)] belongs to Airium.
    - A [networkx.DiGraph] is kept as its node table and its edge list.
      What writing the graph description, reading it back and drawing it
      do (lines 139-141) is decided outside the program; the three calls
      are taken from the environment of the run, each may raise.
    - Timestamps are integers, worker identifiers and payloads strings. *)

From Stdlib Require Import ZArith List Sorting.Sorted Sorting.Permutation.
From Stdlib Require Import Strings.String Strings.Ascii DecimalString DecimalZ DecimalPos.
From stdpp Require Import base list strings gmap sorting.

Open Scope Z_scope.

(** ** Exceptions *)

Inductive exn : Type :=
| KeyError (k : string)
| ValueError (s : string)
| IndexError
| OtherError (name : string).

Inductive result (A : Type) : Type :=
| Ok (a : A)
| Raise (e : exn).
Arguments Ok {A} a.
Arguments Raise {A} e.

#[global] Instance result_bind : MBind result := λ A B k r,
  match r with
  | Ok a => k a
  | Raise e => Raise e
  end.

Definition raises {A : Type} (r : result A) : Prop := ∃ e, r = Raise e.

(** [[f(x) for x in l]] where [f] may raise: the first failure wins. *)
Fixpoint map_result {A B : Type} (f : A → result B) (l : list A) : result (list B) :=
  match l with
  | [] => Ok []
  | x :: l' => y ← f x; ys ← map_result f l'; Ok (y :: ys)
  end.

(** [for x in l: acc = f(acc, x)] where the body may raise. *)
Fixpoint fold_result {A S : Type} (f : S → A → result S) (l : list A) (acc : S) : result S :=
  match l with
  | [] => Ok acc
  | x :: l' => acc' ← f acc x; fold_result f l' acc'
  end.

(** ** Insertion-ordered dictionaries *)

Section Dict.
Context {K V : Type} `{EqDecision K}.

Definition dict : Type := list (K * V).

Definition dict_keys (d : dict) : list K := d.*1.

(** [d.get(k)] *)
Fixpoint dict_get (k : K) (d : dict) : option V :=
  match d with
  | [] => None
  | (k', v) :: d' => if decide (k = k') then Some v else dict_get k d'
  end.

(** [k in d] *)
Definition dict_mem (k : K) (d : dict) : bool :=
  match dict_get k d with Some _ => true | None => false end.

(** [d[k] = v]: an existing key keeps its position, a new key goes last. *)
Fixpoint dict_set (k : K) (v : V) (d : dict) : dict :=
  match d with
  | [] => [(k, v)]
  | (k', v') :: d' =>
      if decide (k = k') then (k', v) :: d' else (k', v') :: dict_set k v d'
  end.

(** [d.setdefault(k, v)]: the stored value and the dictionary after it. *)
Definition dict_setdefault (k : K) (v : V) (d : dict) : V * dict :=
  match dict_get k d with
  | Some v' => (v', d)
  | None => (v, dict_set k v d)
  end.
End Dict.
Arguments dict K V : clear implicits.

(** [d[k]] on a dictionary with string keys. *)
Definition getitem {V : Type} (d : dict string V) (k : string) : result V :=
  match dict_get k d with
  | Some v => Ok v
  | None => Raise (KeyError k)
  end.

(** ** Python builtins used by the program *)

Definition newline : string := String (ascii_of_nat 10) EmptyString.

(** [sep.join(l)] *)
Definition join (sep : string) (l : list string) : string := String.concat sep l.

(** [s[1::]] *)
Definition drop_first (s : string) : string :=
  match s with
  | EmptyString => EmptyString
  | String _ s' => s'
  end.

(** [str(n)] for an integer. *)
Definition str_of_int (n : Z) : string := NilZero.string_of_int (Z.to_int n).

(** [int(s)] for a string, base ten: surrounding white space (tab, line
    feed, vertical tab, form feed, carriage return, space) is dropped, one
    sign is allowed, digits may be separated by single underscores.
    Anything else raises [ValueError].  (Only ASCII is covered.) *)
Definition is_space (a : ascii) : bool :=
  let n := nat_of_ascii a in
  ((9 <=? n)%nat && (n <=? 13)%nat) || (n =? 32)%nat.

Definition is_digit (a : ascii) : bool :=
  let n := nat_of_ascii a in (48 <=? n)%nat && (n <=? 57)%nat.

Definition digit_value (a : ascii) : Z := Z.of_nat (nat_of_ascii a - 48).

Fixpoint lstrip (l : list ascii) : list ascii :=
  match l with
  | a :: l' => if is_space a then lstrip l' else l
  | [] => []
  end.

Definition strip (l : list ascii) : list ascii :=
  rev (lstrip (rev (lstrip l))).

Fixpoint digits_value (acc : Z) (after_underscore : bool) (l : list ascii) : option Z :=
  match l with
  | [] => if after_underscore then None else Some acc
  | a :: l' =>
      if is_digit a then digits_value (10 * acc + digit_value a) false l'
      else if decide (a = "_"%char) then
        if after_underscore then None else digits_value acc true l'
      else None
  end.

Definition unsigned_value (l : list ascii) : option Z :=
  match l with
  | a :: _ => if is_digit a then digits_value 0 false l else None
  | [] => None
  end.

Definition py_int (s : string) : result Z :=
  let l := strip (list_ascii_of_string s) in
  let v := match l with
           | a :: l' =>
               if decide (a = "-"%char) then Z.opp <$> unsigned_value l'
               else if decide (a = "+"%char) then unsigned_value l'
               else unsigned_value l
           | [] => None
           end in
  match v with
  | Some n => Ok n
  | None => Raise (ValueError s)
  end.

(** [l[i] = x] on a list: out of range raises [IndexError]. *)
Definition list_setitem {A : Type} (l : list A) (i : nat) (x : A) : result (list A) :=
  if decide (i < length l)%nat then Ok (<[i := x]> l) else Raise IndexError.

(** [sorted(l, key=key)]: Python's sort is stable and compares keys with
    [<] only.  Insertion from the right keeps an element ahead of every
    later element whose key is not smaller. *)
Section Sorted.
Context {A K : Type} (lt : K → K → bool) (key : A → K).

Fixpoint insert_by (x : A) (l : list A) : list A :=
  match l with
  | [] => [x]
  | y :: l' => if lt (key y) (key x) then y :: insert_by x l' else x :: y :: l'
  end.

Fixpoint sorted_by (l : list A) : list A :=
  match l with
  | [] => []
  | x :: l' => insert_by x (sorted_by l')
  end.

(** [x] may stand before [y]: the key of [y] is not smaller. *)
Definition not_after (x y : A) : Prop := lt (key y) (key x) = false.
End Sorted.

(** ** Data model *)

(** A message of the log: the JSON fields [from], [timestamp], [type],
    [payload]. *)
Record Message : Type := {
  m_from : string;
  m_timestamp : Z;
  m_type : string;
  m_payload : string;
}.

#[global] Instance Message_eq_dec : EqDecision Message.
Proof. solve_decision. Defined.

(** The entry of one worker: [predecessors], [successors] and [messages]
    may be absent, [code] is read unconditionally. *)
Record BlockLog : Type := {
  predecessors : option (list string);
  successors : option (list string);
  code : list string;
  messages : option (list Message);
}.

(** ** Markup built with Airium *)

#[local] Set Warnings "-register-all".

Inductive html : Type :=
| Text (s : string)
| Elem (tag : string) (attrs : list (string * string)) (body : list html).

Definition doc : Type := list html.

(** What [html_for_message] returns: a pair in the empty branch (line 43),
    a single string otherwise (line 85). *)
Inductive cell_value : Type :=
| PyTuple (d : doc) (s : string)
| PyStr (d : doc).

(** ** Cell renderer *)

(** Lines 47-48: the substitutes for absent topology fields. *)
Definition predecessors_of (infos : BlockLog) : list string :=
  match predecessors infos with None => ["none"%string] | Some p => p end.
Definition successors_of (infos : BlockLog) : list string :=
  match successors infos with None => ["none"%string] | Some s => s end.

Record Classification : Type := {
  senders : list string;
  receivers : list string;
  arrow : string;
}.

(** Lines 47-67: senders, receivers and arrow by message type. *)
Definition classify (message : Message) (infos : BlockLog) : Classification :=
  let predecessors := predecessors_of infos in
  let successors := successors_of infos in
  let direction := m_type message in
  if decide (direction = "BLOCK_POSTCONDITION"%string) then
    {| senders := predecessors; receivers := successors; arrow := "&darr;" |}
  else if decide (direction = "ERROR_CONDITION"%string) then
    {| senders := successors; receivers := predecessors; arrow := "&uarr;" |}
  else if decide (direction = "ERROR_CONDITION_UNREACHABLE"%string) then
    {| senders := successors; receivers := ["all"%string]; arrow := "&uarr;" |}
  else if decide (direction = "FOUND_RESULT"%string) then
    {| senders := [m_from message]; receivers := ["all"%string]; arrow := "-" |}
  else
    {| senders := ["all"%string]; receivers := ["all"%string]; arrow := "-" |}.

(** Lines 76-78: the sender named in the summary. *)
Definition sender_text (senders : list string) : string :=
  match senders with
  | [] => "self"
  | _ => join ", " senders
  end.

Definition react_line (sender : string) : string :=
  "React to message from <strong>" +:+ sender +:+ "</strong>:".

Definition calculated_line (direction receiver : string) : string :=
  "Calculated new " +:+ direction +:+ " message for <strong>" +:+ receiver +:+ "</strong>".

(** Lines 37-85.  [None] is the falsy slot value [""] of the matrix. *)
Definition html_for_message (message : option Message) (block_log : dict string BlockLog)
    : result cell_value :=
  match message with
  | None => Ok (PyTuple [Elem "div" [] [Text ""]] "")
  | Some message =>
      infos ← getitem block_log (m_from message);
      let result := if decide (m_payload message = ""%string)
                    then "no contents available"%string else m_payload message in
      let direction := m_type message in
      let c := classify message infos in
      let code := join newline (filter (λ x, x ≠ ""%string) (code infos)) in
      let sender := sender_text (senders c) in
      let receiver := join ", " (receivers c) in
      Ok (PyStr
        [Elem "div" [("title"%string, code)]
           [Elem "p" []
              [Elem "span" [] [Text (arrow c)];
               Elem "span" [] [Text (react_line sender)]];
            Elem "p" [] [Text (calculated_line direction receiver)];
            Elem "textarea" [] [Text result]]])
  end.

(** [str(v)] of a returned value used as cell text.  The pair is never
    rendered into a cell: the table calls the cell renderer on populated
    slots only (line 117). *)
Definition cell_text (v : cell_value) : doc :=
  match v with
  | PyStr d => d
  | PyTuple d s => d ++ [Text s]
  end.

(** ** Timeline aligner (lines 89-97 of [html_dict_to_html_table]) *)

Abbreviation Row := (list (option Message)).
Abbreviation Matrix := (dict Z Row).

(** Line 91: [sorted(block_logs.keys(), key=lambda x: int(x[1::]))].  The
    keys are computed for every element before any comparison. *)
Definition suffix_key (x : string) : result Z := py_int (drop_first x).

Definition sort_keys (keys : list string) : result (list string) :=
  keyed ← map_result (λ x, n ← suffix_key x; Ok (x, n)) keys;
  Ok ((sorted_by Z.ltb snd keyed).*1).

(** Lines 92-94: [index_dict[index[1]] = index[0]] over [enumerate]. *)
Definition make_index_dict (sorted_keys : list string) : gmap string nat :=
  foldl (λ d ik, <[ik.2 := ik.1]> d) ∅ (imap (λ i k, (i, k)) sorted_keys).

(** Lines 96-97, one iteration: [setdefault] yields the row stored under
    the relative timestamp (a fresh all-empty row when the key is new);
    the item assignment then mutates that stored row in place. *)
Definition place (first_timestamp : Z) (width : nat) (index_dict : gmap string nat)
    (timestamp_to_message : Matrix) (message : Message) : result Matrix :=
  let key := m_timestamp message - first_timestamp in
  let '(row, d) := dict_setdefault key (replicate width None) timestamp_to_message in
  index ← match index_dict !! m_from message with
          | Some i => Ok i
          | None => Raise (KeyError (m_from message))
          end;
  row' ← list_setitem row index (Some message);
  Ok (dict_set key row' d).

Definition align (all_messages : list Message) (block_logs : dict string BlockLog)
    : result (list string * Matrix) :=
  first ← match all_messages with
          | m :: _ => Ok m
          | [] => Raise IndexError
          end;
  let first_timestamp := m_timestamp first in
  sorted_keys ← sort_keys (dict_keys block_logs);
  let index_dict := make_index_dict sorted_keys in
  timestamp_to_message ←
    fold_result (place first_timestamp (length block_logs) index_dict) all_messages [];
  Ok (sorted_keys, timestamp_to_message).

(** The content of the slot at a relative timestamp and a column. *)
Definition slot (timestamp_to_message : Matrix) (r : Z) (c : nat) : option Message :=
  match dict_get r timestamp_to_message with
  | Some row => default None (row !! c)
  | None => None
  end.

(** Every row of the matrix has the given width. *)
Definition rows_width (n : nat) (timestamp_to_message : Matrix) : Prop :=
  ∀ r row, dict_get r timestamp_to_message = Some row → length row = n.

(** ** Table renderer (lines 98-123 of [html_dict_to_html_table]) *)

Definition type_to_klass : gmap string string :=
  list_to_map [("BLOCK_POSTCONDITION", "precondition");
               ("ERROR_CONDITION", "postcondition");
               ("ERROR_CONDITION_UNREACHABLE", "postcondition")]%string.

Definition render_cell (block_logs : dict string BlockLog) (msg : option Message)
    : result html :=
  match msg with
  | None => Ok (Elem "td" [] [])
  | Some m =>
      let klass := default "normal"%string (type_to_klass !! m_type m) in
      v ← html_for_message (Some m) block_logs;
      Ok (Elem "td" [("class"%string, klass)] (cell_text v))
  end.

Definition render_row (block_logs : dict string BlockLog) (entry : Z * Row) : result html :=
  cells ← map_result (render_cell block_logs) entry.2;
  Ok (Elem "tr" [] (Elem "td" [] [Text (str_of_int entry.1)] :: cells)).

Definition render_table (block_logs : dict string BlockLog)
    (sorted_keys : list string) (timestamp_to_message : Matrix) : result doc :=
  let headers := "time"%string :: sorted_keys in
  rows ← map_result (render_row block_logs) timestamp_to_message;
  Ok [Elem "table" [("class", "worker")]%string
        (Elem "tr" [("class", "header_row")]%string
              (map (λ key, Elem "th" [] [Text key]) headers)
         :: rows)].

Definition html_dict_to_html_table (all_messages : list Message)
    (block_logs : dict string BlockLog) : result doc :=
  '(sorted_keys, timestamp_to_message) ← align all_messages block_logs;
  render_table block_logs sorted_keys timestamp_to_message.

(** Reading a rendered table back: header texts and rows. *)
Definition cell_texts (cells : list html) : list string :=
  omap (λ h, match h with Elem _ _ [Text s] => Some s | _ => None end) cells.

Definition table_headers (d : doc) : list string :=
  match d with
  | [Elem _ _ (Elem _ _ ths :: _)] => cell_texts ths
  | _ => []
  end.

Definition table_rows (d : doc) : list html :=
  match d with
  | [Elem _ _ (_ :: rows)] => rows
  | _ => []
  end.

(** The first cell of a data row and its remaining cells. *)
Definition row_time (tr : html) : option string :=
  match tr with
  | Elem _ _ (Elem _ _ [Text s] :: _) => Some s
  | _ => None
  end.

Definition row_cells (tr : html) : list html :=
  match tr with
  | Elem _ _ (_ :: cells) => cells
  | _ => []
  end.

(** Every text node of a document, in document order. *)
Fixpoint html_texts (h : html) : list string :=
  match h with
  | Text s => [s]
  | Elem _ _ body => concat (map html_texts body)
  end.

Definition doc_texts (d : doc) : list string := concat (map html_texts d).

(** ** Topology grapher (lines 126-141) *)

(** The part of [networkx.DiGraph] the program uses: the node table with
    the attributes of each node, and the edges.  An edge is stored once,
    whatever the number of times it is added. *)
Record DiGraph : Type := {
  g_nodes : dict string (dict string string);
  g_edges : list (string * string);
}.

Definition empty_graph : DiGraph := {| g_nodes := []; g_edges := [] |}.

(** [d.update(attrs)] *)
Definition dict_update {K V : Type} `{EqDecision K} (d attrs : dict K V) : dict K V :=
  foldl (λ d kv, dict_set kv.1 kv.2 d) d attrs.

(** [g.add_node(n, **attrs)]: a known node has its attributes updated. *)
Definition add_node (n : string) (attrs : dict string string) (g : DiGraph) : DiGraph :=
  {| g_nodes := dict_set n (dict_update (default [] (dict_get n (g_nodes g))) attrs) (g_nodes g);
     g_edges := g_edges g |}.

(** [g.add_edge(u, v)]: missing end points become nodes without attributes. *)
Definition add_edge (u v : string) (g : DiGraph) : DiGraph :=
  let g1 := if dict_mem u (g_nodes g) then g else add_node u [] g in
  let g2 := if dict_mem v (g_nodes g1) then g1 else add_node v [] g1 in
  {| g_nodes := g_nodes g2;
     g_edges := if decide ((u, v) ∈ g_edges g2) then g_edges g2 else g_edges g2 ++ [(u, v)] |}.

(** Lines 130-131. *)
Definition node_label (key : string) (infos : BlockLog) : string :=
  let code := join newline (filter (λ c, c ≠ ""%string) (code infos)) in
  if decide (code = ""%string) then key else key +:+ ":" +:+ newline +:+ code.

(** Lines 127-136: the graph handed to the dot writer. *)
Definition build_graph (block_logs : dict string BlockLog) : DiGraph :=
  let g := foldl (λ g entry,
                    add_node entry.1
                      [("shape", "box"); ("label", node_label entry.1 entry.2)]%string g)
                 empty_graph block_logs in
  foldl (λ g entry,
           match successors entry.2 with
           | Some succs => foldl (λ g successor, add_edge entry.1 successor g) g succs
           | None => g
           end)
        g block_logs.

(** The attributes line 132 gives the node of a worker. *)
Definition node_attrs (entry : string * BlockLog) : dict string string :=
  [("shape", "box"); ("label", node_label entry.1 entry.2)]%string.

(** What adding edges may change: known nodes keep their attributes,
    the node table stays a dictionary, the edge list stays duplicate-free. *)
Record grows (g g' : DiGraph) : Prop := {
  grows_attrs : ∀ k a, dict_get k (g_nodes g) = Some a → dict_get k (g_nodes g') = Some a;
  grows_nodes : NoDup (dict_keys (g_nodes g)) → NoDup (dict_keys (g_nodes g'));
  grows_edges : NoDup (g_edges g) → NoDup (g_edges g');
}.

(** ** Driver (lines 144-168) *)

(** The graph tooling called at lines 139-141, as the run finds it:
    [nx.drawing.nx_pydot.write_dot], [pydot.graph_from_dot_file] with the
    unpacking of its single result, and [graph.write_png].  Each either
    completes or raises. *)
Record GraphTools : Type := {
  write_dot : DiGraph → result unit;
  graph_from_dot_file : DiGraph → result unit;
  write_png : DiGraph → result unit;
}.

(** Tooling that accepts every graph. *)
Definition working_tools : GraphTools :=
  {| write_dot := λ _, Ok (); graph_from_dot_file := λ _, Ok (); write_png := λ _, Ok () |}.

(** The environment of a run: the files the program reads, already
    parsed, and the graph tooling. *)
Record Files : Type := {
  block_analysis : dict string BlockLog;   (* block_analysis.json *)
  summary : dict string BlockLog;          (* blocks.json *)
  table_html : string;
  table_css : string;
  graph_tools : GraphTools;
}.

(** What the program writes.  The report is the template with the table
    and the stylesheet substituted for their two markers. *)
Inductive artifact : Type :=
| Report (template : string) (table : doc) (css : string)
| GraphDot (g : DiGraph)
| GraphPng (g : DiGraph).

Inductive effect : Type :=
| WriteFile (name : string) (content : artifact)
| OpenBrowser (name : string).

(** Lines 126-141: the writes completed and the outcome.  A call that
    raises leaves the later ones undone. *)
Definition visualize (fs : Files) : list effect * result unit :=
  let g := build_graph (summary fs) in
  match write_dot (graph_tools fs) g with
  | Raise e => ([], Raise e)
  | Ok _ =>
      match graph_from_dot_file (graph_tools fs) g with
      | Raise e => ([WriteFile "graph.dot" (GraphDot g)], Raise e)
      | Ok _ =>
          match write_png (graph_tools fs) g with
          | Raise e => ([WriteFile "graph.dot" (GraphDot g)], Raise e)
          | Ok _ =>
              ([WriteFile "graph.dot" (GraphDot g); WriteFile "graph.png" (GraphPng g)],
               Ok ())
          end
      end
  end.

(** Lines 149-152. *)
Definition collect_messages (block_logs : dict string BlockLog) : list Message :=
  concat (map (λ entry, default [] (messages entry.2)) block_logs).

(** Line 155: the key [(timestamp, from[1::])] and the order of tuples. *)
Definition message_key (entry : Message) : Z * string :=
  (m_timestamp entry, drop_first (m_from entry)).

Definition tuple_ltb (a b : Z * string) : bool :=
  if a.1 =? b.1 then String.ltb a.2 b.2 else a.1 <? b.1.

Definition sort_messages (all_messages : list Message) : list Message :=
  sorted_by tuple_ltb message_key all_messages.

(** [main]: the effects performed and the outcome ([Ok] is a normal
    return of [None]).  The report is written (lines 156-162) before
    [visualize] runs (line 163); the browser is opened last (line 164). *)
Definition main (fs : Files) : list effect * result unit :=
  let block_logs := block_analysis fs in
  let all_messages := collect_messages block_logs in
  match all_messages with
  | [] => ([], Ok ())
  | _ =>
      let all_messages := sort_messages all_messages in
      match html_dict_to_html_table all_messages block_logs with
      | Raise e => ([], Raise e)
      | Ok table =>
          let report :=
            WriteFile "report.html" (Report (table_html fs) table (table_css fs)) in
          match visualize fs with
          | (written, Raise e) => (report :: written, Raise e)
          | (written, Ok _) => (report :: written ++ [OpenBrowser "report.html"], Ok ())
          end
      end
  end.

(** [sys.exit(main())]: [None] exits with status zero, an uncaught
    exception with status one. *)
Definition exit_status (outcome : result unit) : Z :=
  match outcome with
  | Ok _ => 0
  | Raise _ => 1
  end.

(** The table written into the report, if any. *)
Definition report_table (effects : list effect) : option doc :=
  head (omap (λ e, match e with
                   | WriteFile _ (Report _ table _) => Some table
                   | _ => None
                   end) effects).

(** ** Scenarios *)

(** Workers B0 (successors B1, no predecessors field) and B1
    (predecessors B0), one BLOCK_POSTCONDITION message from B0 at
    timestamp 100. *)
Definition scenario_message (payload : string) : Message :=
  {| m_from := "B0"; m_timestamp := 100;
     m_type := "BLOCK_POSTCONDITION"; m_payload := payload |}.

Definition scenario_logs (code0 code1 : list string) (payload : string)
    : dict string BlockLog :=
  [("B0"%string, {| predecessors := None; successors := Some ["B1"%string];
                    code := code0; messages := Some [scenario_message payload] |});
   ("B1"%string, {| predecessors := Some ["B0"%string]; successors := None;
                    code := code1; messages := None |})].

(** A block-analysis file with one worker, a summary file with two. *)
Definition two_files : Files :=
  {| block_analysis :=
       [("B0"%string, {| predecessors := None; successors := None; code := [];
                         messages := Some [{| m_from := "B0"; m_timestamp := 1;
                                              m_type := "FOUND_RESULT"; m_payload := "" |}] |})];
     summary :=
       [("B0"%string, {| predecessors := None; successors := Some ["B1"%string];
                         code := []; messages := None |});
        ("B1"%string, {| predecessors := Some ["B0"%string]; successors := None;
                         code := []; messages := None |})];
     table_html := "";
     table_css := "";
     graph_tools := working_tools |}.

(** Three workers listed out of column order; B2 logs two messages at the
    same timestamp, B1 logs none. *)
Definition demo_logs : dict string BlockLog :=
  [("B10"%string,
    {| predecessors := None; successors := Some ["B2"%string]; code := ["x = 1"%string];
       messages := Some [{| m_from := "B10"; m_timestamp := 7;
                            m_type := "BLOCK_POSTCONDITION"; m_payload := "a" |};
                         {| m_from := "B10"; m_timestamp := 5;
                            m_type := "FOUND_RESULT"; m_payload := "" |}] |});
   ("B2"%string,
    {| predecessors := Some ["B10"%string]; successors := Some []; code := [];
       messages := Some [{| m_from := "B2"; m_timestamp := 9;
                            m_type := "ERROR_CONDITION"; m_payload := "e" |};
                         {| m_from := "B2"; m_timestamp := 5;
                            m_type := "ERROR_CONDITION"; m_payload := "f" |};
                         {| m_from := "B2"; m_timestamp := 5;
                            m_type := "ERROR_CONDITION_UNREACHABLE"; m_payload := "g" |}] |});
   ("B1"%string,
    {| predecessors := None; successors := None; code := [""%string]; messages := None |})].

Definition demo_files : Files :=
  {| block_analysis := demo_logs; summary := demo_logs;
     table_html := "<!--<<<TABLE>>><!-->"; table_css := "";
     graph_tools := working_tools |}.

Definition demo_messages : list Message := collect_messages demo_logs.

Definition demo_table : doc :=
  Eval vm_compute in
    match html_dict_to_html_table (sort_messages demo_messages) demo_logs with
    | Ok table => table
    | Raise _ => []
    end.

Definition demo_alignment : list string * Matrix :=
  Eval vm_compute in
    match align (sort_messages demo_messages) demo_logs with
    | Ok a => a
    | Raise _ => ([], [])
    end.

(** * Properties *)

(** ** Cell renderer *)

(** C9: for an empty matrix slot the cell renderer raises nothing and
    returns an empty render: the pair of an empty [div] and the empty
    string (a populated message yields a single string instead). *)
Theorem html_for_message_empty_slot (block_log : dict string BlockLog) :
  html_for_message None block_log = Ok (PyTuple [Elem "div" [] [Text ""]] "")
  ∧ ¬ raises (html_for_message None block_log).
Proof. split; [reflexivity|]. intros [e He]. discriminate He. Qed.

Lemma getitem_Some {V : Type} (d : dict string V) k v :
  dict_get k d = Some v → getitem d k = Ok v.
Proof. unfold getitem. by intros ->. Qed.

(** The render of a populated message, in terms of its classification. *)
Lemma html_for_message_populated message block_log infos :
  dict_get (m_from message) block_log = Some infos →
  html_for_message (Some message) block_log =
    Ok (PyStr
      [Elem "div" [("title"%string, join newline (filter (λ x, x ≠ ""%string) (code infos)))]
         [Elem "p" []
            [Elem "span" [] [Text (arrow (classify message infos))];
             Elem "span" [] [Text (react_line (sender_text (senders (classify message infos))))]];
          Elem "p" []
            [Text (calculated_line (m_type message)
                     (join ", " (receivers (classify message infos))))];
          Elem "textarea" []
            [Text (if decide (m_payload message = ""%string)
                   then "no contents available"%string else m_payload message)]]]).
Proof.
  intros Hget. unfold html_for_message.
  rewrite (getitem_Some _ _ _ Hget). reflexivity.
Qed.

(** C10: when the computed sender set of a populated message is empty,
    the summary names the sender by the literal text "self". *)
Theorem empty_senders_named_self message block_log infos :
  dict_get (m_from message) block_log = Some infos →
  senders (classify message infos) = [] →
  ∃ title glyph second payload,
    html_for_message (Some message) block_log =
      Ok (PyStr
        [Elem "div" [("title"%string, title)]
           [Elem "p" []
              [Elem "span" [] [Text glyph];
               Elem "span" [] [Text "React to message from <strong>self</strong>:"]];
            Elem "p" [] [Text second];
            Elem "textarea" [] [Text payload]]]).
Proof.
  intros Hget Hs.
  rewrite (html_for_message_populated _ _ _ Hget), Hs.
  do 4 eexists. reflexivity.
Qed.

(** BLOCK_POSTCONDITION from a worker whose [predecessors] is present and
    empty: the sender set is empty and the cell says "self". *)
Lemma empty_senders_named_self_witness :
  let infos := {| predecessors := Some []; successors := Some ["B1"%string];
                  code := []; messages := None |} in
  let message := {| m_from := "B0"; m_timestamp := 3;
                    m_type := "BLOCK_POSTCONDITION"; m_payload := "x" |} in
  senders (classify message infos) = [] ∧
  ∃ title glyph second payload,
    html_for_message (Some message) [("B0"%string, infos)] =
      Ok (PyStr
        [Elem "div" [("title"%string, title)]
           [Elem "p" []
              [Elem "span" [] [Text glyph];
               Elem "span" [] [Text "React to message from <strong>self</strong>:"]];
            Elem "p" [] [Text second];
            Elem "textarea" [] [Text payload]]]).
Proof.
  intros infos message. split; [reflexivity|].
  apply (empty_senders_named_self message [("B0"%string, infos)] infos); reflexivity.
Defined.

(** C2 as stated fails: a BLOCK_POSTCONDITION message of a worker without
    a [successors] field gets the receivers ["none"], not ["all"]; with an
    empty [successors] list it gets no receiver at all. *)
Lemma postcondition_receivers_counterexample :
  let undeclared := {| predecessors := Some ["B0"%string]; successors := None;
                       code := []; messages := None |} in
  let declared_empty := {| predecessors := Some ["B0"%string]; successors := Some [];
                           code := []; messages := None |} in
  let message := {| m_from := "B1"; m_timestamp := 0;
                    m_type := "BLOCK_POSTCONDITION"; m_payload := "" |} in
  receivers (classify message undeclared) = ["none"%string]
  ∧ receivers (classify message undeclared) ≠ ["all"%string]
  ∧ receivers (classify message declared_empty) = []
  ∧ receivers (classify message declared_empty) ≠ ["all"%string].
Proof. cbv zeta. repeat split; try reflexivity; discriminate. Qed.

(** C2, amended: for a BLOCK_POSTCONDITION message of a worker of the
    block log, the receivers are the worker's [successors] field, or
    ["none"] when the field is absent; the senders are its [predecessors]
    field, or ["none"] when absent; the arrow is the downward glyph; and
    the rendered cell shows exactly these. *)
Theorem classify_block_postcondition message block_log infos :
  m_type message = "BLOCK_POSTCONDITION"%string →
  dict_get (m_from message) block_log = Some infos →
  classify message infos =
    {| senders := default ["none"%string] (predecessors infos);
       receivers := default ["none"%string] (successors infos);
       arrow := "&darr;" |}
  ∧ ∃ title payload,
      html_for_message (Some message) block_log =
        Ok (PyStr
          [Elem "div" [("title"%string, title)]
             [Elem "p" []
                [Elem "span" [] [Text "&darr;"];
                 Elem "span" []
                   [Text (react_line
                            (sender_text (default ["none"%string] (predecessors infos))))]];
              Elem "p" []
                [Text (calculated_line "BLOCK_POSTCONDITION"
                         (join ", " (default ["none"%string] (successors infos))))];
              Elem "textarea" [] [Text payload]]]).
Proof.
  intros Hty Hget.
  assert (Hc : classify message infos =
    {| senders := default ["none"%string] (predecessors infos);
       receivers := default ["none"%string] (successors infos);
       arrow := "&darr;" |}).
  { unfold classify, predecessors_of, successors_of. rewrite Hty.
    destruct (predecessors infos), (successors infos); reflexivity. }
  split; [exact Hc|].
  rewrite (html_for_message_populated _ _ _ Hget), Hc, Hty.
  do 2 eexists. reflexivity.
Qed.

Lemma classify_block_postcondition_witness :
  let infos := {| predecessors := None; successors := Some ["B1"; "B2"]%string;
                  code := ["a"%string]; messages := None |} in
  let message := {| m_from := "B0"; m_timestamp := 3;
                    m_type := "BLOCK_POSTCONDITION"; m_payload := "x" |} in
  classify message infos =
    {| senders := ["none"%string]; receivers := ["B1"; "B2"]%string; arrow := "&darr;" |}.
Proof.
  intros infos message.
  exact (proj1 (classify_block_postcondition message [("B0"%string, infos)] infos
                  eq_refl eq_refl)).
Defined.

(** ** Driver: the empty log *)

Lemma collect_messages_nil (block_logs : dict string BlockLog) :
  (∀ entry, entry ∈ block_logs → messages entry.2 = None ∨ messages entry.2 = Some []) →
  collect_messages block_logs = [].
Proof.
  unfold collect_messages. induction block_logs as [|entry rest IH]; intros Hall.
  - reflexivity.
  - cbn [map concat]. rewrite IH.
    + destruct (Hall entry) as [-> | ->]; [left | reflexivity | reflexivity].
    + intros e He. apply Hall. by right.
Qed.

(** C7: when no worker of the block-analysis log has a message, [main]
    renders nothing, writes no file, opens nothing and returns normally,
    so that the process exits with status zero. *)
Theorem empty_log_no_report (fs : Files) :
  (∀ entry, entry ∈ block_analysis fs →
     messages entry.2 = None ∨ messages entry.2 = Some []) →
  main fs = ([], Ok ()) ∧ exit_status (main fs).2 = 0.
Proof.
  intros Hall. unfold main.
  rewrite (collect_messages_nil _ Hall). split; reflexivity.
Qed.

Lemma empty_log_no_report_witness :
  let fs := {| block_analysis :=
                 [("B0"%string, {| predecessors := None; successors := Some ["B1"%string];
                                   code := ["x"%string]; messages := None |});
                  ("B1"%string, {| predecessors := None; successors := None;
                                   code := []; messages := Some [] |})];
               summary := []; table_html := "t"; table_css := "c";
               graph_tools := working_tools |} in
  main fs = ([], Ok ()) ∧ exit_status (main fs).2 = 0.
Proof.
  intros fs. apply (empty_log_no_report fs).
  intros entry Hin. cbn in Hin.
  apply elem_of_cons in Hin as [-> | Hin]; [left; reflexivity|].
  apply elem_of_cons in Hin as [-> | Hin]; [right; reflexivity|].
  by apply elem_of_nil in Hin.
Defined.

(** ** The two-worker scenario *)

(** C3 as stated fails: B0 declares no predecessors, so the summary of
    its cell names the sender "none", and the text naming B0 occurs
    nowhere in the table. *)
Lemma scenario_sender_counterexample :
  ∃ table,
    html_dict_to_html_table
      (sort_messages (collect_messages (scenario_logs [] [] "p")))
      (scenario_logs [] [] "p") = Ok table
    ∧ react_line "none" ∈ doc_texts table
    ∧ react_line "B0" ∉ doc_texts table.
Proof.
  eexists. split; [vm_compute; reflexivity|].
  split.
  - apply (bool_decide_unpack _). vm_compute. exact I.
  - apply (bool_decide_unpack _). vm_compute. exact I.
Qed.

(** C3, amended: in the scenario the single message is collected and
    the table rendered from it has the single data row of relative time 0;
    the B0 cell reads "React to message from none:" and "Calculated new
    BLOCK_POSTCONDITION message for B1"; the B1 cell is empty; and the
    graph built from the two workers has the two nodes and the single
    edge B0 -> B1. *)
Theorem scenario_report (code0 code1 : list string) (payload : string) :
  let logs := scenario_logs code0 code1 payload in
  let table :=
    [Elem "table" [("class", "worker")]%string
       [Elem "tr" [("class", "header_row")]%string
          [Elem "th" [] [Text "time"]; Elem "th" [] [Text "B0"]; Elem "th" [] [Text "B1"]];
        Elem "tr" []
          [Elem "td" [] [Text "0"];
           Elem "td" [("class", "precondition")]%string
             [Elem "div" [("title"%string,
                           join newline (filter (λ x, x ≠ ""%string) code0))]
                [Elem "p" []
                   [Elem "span" [] [Text "&darr;"];
                    Elem "span" [] [Text "React to message from <strong>none</strong>:"]];
                 Elem "p" []
                   [Text "Calculated new BLOCK_POSTCONDITION message for <strong>B1</strong>"];
                 Elem "textarea" []
                   [Text (if decide (payload = ""%string)
                          then "no contents available"%string else payload)]]];
           Elem "td" [] []]]] in
  let graph :=
    {| g_nodes := [("B0", [("shape", "box"); ("label", node_label "B0" (Build_BlockLog None (Some ["B1"]) code0 (Some [scenario_message payload])))]);
                   ("B1", [("shape", "box"); ("label", node_label "B1" (Build_BlockLog (Some ["B0"]) None code1 None))])]%string;
       g_edges := [("B0", "B1")]%string |} in
  collect_messages logs = [scenario_message payload]
  ∧ html_dict_to_html_table (sort_messages (collect_messages logs)) logs = Ok table
  ∧ build_graph logs = graph.
Proof.
  intros logs table graph. subst logs table graph.
  split; [reflexivity|]. split; vm_compute; reflexivity.
Qed.

(** ** White space and [int] *)

(** [int] strips tab, line feed, vertical tab, form feed, carriage return
    and space, and no other control character. *)
Example py_int_white_space :
  py_int (String (ascii_of_nat 9) " 7" +:+ newline) = Ok 7
  ∧ py_int (String (ascii_of_nat 28) "7") = Raise (ValueError (String (ascii_of_nat 28) "7"))
  ∧ py_int (String (ascii_of_nat 31) "7") = Raise (ValueError (String (ascii_of_nat 31) "7"))
  ∧ py_int "-1_0" = Ok (-10)
  ∧ py_int "1__0" = Raise (ValueError "1__0")
  ∧ py_int "" = Raise (ValueError "").
Proof. repeat split; vm_compute; reflexivity. Qed.

(** ** Facts about dictionaries *)

Section DictFacts.
Context {K V : Type} `{EqDecision K}.
Implicit Types (d : dict K V) (k : K) (v : V).

Lemma dict_get_None k d : dict_get k d = None ↔ k ∉ dict_keys d.
Proof.
  unfold dict_keys. induction d as [|[k' v'] d IH]; cbn.
  - split; [intros _; apply not_elem_of_nil | done].
  - rewrite not_elem_of_cons. destruct (decide (k = k')) as [->|Hne].
    + split; [done | intros [? _]; done].
    + rewrite IH. tauto.
Qed.

Lemma dict_get_is_Some k d : is_Some (dict_get k d) ↔ k ∈ dict_keys d.
Proof.
  destruct (dict_get k d) eqn:Hg.
  - split; [intros _ | eauto].
    destruct (decide (k ∈ dict_keys d)) as [|Hn]; [done|].
    apply dict_get_None in Hn. congruence.
  - split; [intros [? ?]; done|].
    intros Hin. apply dict_get_None in Hg. done.
Qed.

Lemma dict_get_elem_of k v d : dict_get k d = Some v → (k, v) ∈ d.
Proof.
  induction d as [|[k' v'] d IH]; cbn; [done|].
  destruct (decide (k = k')) as [->|Hne].
  - intros [= ->]. left.
  - intros Hg. right. auto.
Qed.

Lemma dict_get_NoDup k v d : NoDup (dict_keys d) → (k, v) ∈ d → dict_get k d = Some v.
Proof.
  unfold dict_keys. induction d as [|[k' v'] d IH]; cbn; intros Hnd Hin.
  - by apply elem_of_nil in Hin.
  - apply NoDup_cons in Hnd as [Hfresh Hnd].
    apply elem_of_cons in Hin as [[= -> ->] | Hin].
    + by rewrite decide_True.
    + destruct (decide (k = k')) as [->|Hne]; [|auto].
      exfalso. apply Hfresh. apply list_elem_of_fmap. by exists (k', v).
Qed.

Lemma dict_get_set_eq k v d : dict_get k (dict_set k v d) = Some v.
Proof.
  induction d as [|[k' v'] d IH]; cbn.
  - by rewrite decide_True.
  - destruct (decide (k = k')) as [->|Hne]; cbn.
    + by rewrite decide_True.
    + by rewrite decide_False.
Qed.

Lemma dict_get_set_ne k k' v d : k ≠ k' → dict_get k' (dict_set k v d) = dict_get k' d.
Proof.
  intros Hne. induction d as [|[k0 v0] d IH]; cbn.
  - by rewrite decide_False.
  - destruct (decide (k = k0)) as [->|Hne0]; cbn.
    + by rewrite !decide_False.
    + destruct (decide (k' = k0)); [done | apply IH].
Qed.

Lemma dict_keys_set_old k v d : k ∈ dict_keys d → dict_keys (dict_set k v d) = dict_keys d.
Proof.
  unfold dict_keys. induction d as [|[k' v'] d IH]; cbn; intros Hin.
  - by apply elem_of_nil in Hin.
  - destruct (decide (k = k')) as [->|Hne]; cbn; [done|].
    f_equal. apply IH. apply elem_of_cons in Hin as [?|?]; done.
Qed.

Lemma dict_set_new k v d : k ∉ dict_keys d → dict_set k v d = d ++ [(k, v)].
Proof.
  unfold dict_keys. induction d as [|[k' v'] d IH]; cbn; intros Hnin; [done|].
  apply not_elem_of_cons in Hnin as [Hne Hnin].
  rewrite decide_False by done. f_equal. by apply IH.
Qed.

Lemma dict_keys_set_new k v d : k ∉ dict_keys d → dict_keys (dict_set k v d) = dict_keys d ++ [k].
Proof.
  intros Hnin. rewrite dict_set_new by done. unfold dict_keys. by rewrite fmap_app.
Qed.

Lemma dict_keys_set_elem k k' v d :
  k' ∈ dict_keys (dict_set k v d) ↔ k' = k ∨ k' ∈ dict_keys d.
Proof.
  destruct (decide (k ∈ dict_keys d)) as [Hin|Hnin].
  - rewrite dict_keys_set_old by done. split; [tauto | intros [->|?]; done].
  - rewrite dict_keys_set_new by done. rewrite elem_of_app, list_elem_of_singleton. tauto.
Qed.

Lemma dict_keys_set_NoDup k v d : NoDup (dict_keys d) → NoDup (dict_keys (dict_set k v d)).
Proof.
  intros Hnd. destruct (decide (k ∈ dict_keys d)) as [Hin|Hnin].
  - by rewrite dict_keys_set_old.
  - rewrite dict_keys_set_new by done. apply NoDup_app. split; [done|]. split.
    + intros x Hx Hx'. apply list_elem_of_singleton in Hx' as ->. done.
    + apply NoDup_singleton.
Qed.
End DictFacts.

(** ** Facts about [sorted] *)

Section SortedFacts.
Context {A K : Type} (lt : K → K → bool) (key : A → K).
Hypothesis lt_asym : ∀ a b, lt a b = true → lt b a = false.

Local Abbreviation not_after := (not_after lt key).

Lemma insert_by_perm x l : insert_by lt key x l ≡ₚ x :: l.
Proof.
  induction l as [|y l IH]; cbn; [done|].
  destruct (lt (key y) (key x)); [|done].
  rewrite IH. apply perm_swap.
Qed.

Lemma sorted_by_perm l : sorted_by lt key l ≡ₚ l.
Proof.
  induction l as [|x l IH]; cbn; [done|].
  rewrite insert_by_perm. by constructor.
Qed.

Lemma insert_by_HdRel y x l :
  not_after y x → HdRel not_after y l → HdRel not_after y (insert_by lt key x l).
Proof.
  intros Hyx Hhd. destruct l as [|z l]; cbn.
  - by constructor.
  - destruct (lt (key z) (key x)); constructor; [|done].
    by inversion Hhd.
Qed.

Lemma insert_by_Sorted x l : Sorted not_after l → Sorted not_after (insert_by lt key x l).
Proof.
  induction l as [|y l IH]; cbn; intros Hs.
  - repeat constructor.
  - apply Sorted_inv in Hs as [Hs Hhd].
    destruct (lt (key y) (key x)) eqn:Hlt.
    + constructor; [by apply IH|].
      apply insert_by_HdRel; [|done]. unfold not_after. by apply lt_asym.
    + constructor; [by constructor|]. by constructor.
Qed.

Lemma sorted_by_Sorted l : Sorted not_after (sorted_by lt key l).
Proof.
  induction l as [|x l IH]; cbn; [constructor|]. by apply insert_by_Sorted.
Qed.
End SortedFacts.

Lemma StronglySorted_snoc_lt (l : list Z) (r : Z) :
  StronglySorted Z.lt l → (∀ k, k ∈ l → k < r) → StronglySorted Z.lt (l ++ [r]).
Proof.
  intros Hs Hlt. apply StronglySorted_app_2; [|done|repeat constructor].
  intros x1 x2 Hx1 Hx2. apply list_elem_of_singleton in Hx2 as ->. by apply Hlt.
Qed.

Lemma tuple_ltb_asym a b : tuple_ltb a b = true → tuple_ltb b a = false.
Proof.
  unfold tuple_ltb. destruct a as [t1 s1], b as [t2 s2]; cbn.
  destruct (Z.eqb_spec t1 t2) as [->|Hne].
  - rewrite Z.eqb_refl. unfold String.ltb. rewrite (String.compare_antisym s1 s2).
    by destruct (String.compare s2 s1).
  - destruct (Z.eqb_spec t2 t1) as [->|_]; [done|]. lia.
Qed.

(** Line 155 leaves the timestamps in non-decreasing order. *)
Lemma sort_messages_timestamps (all_messages : list Message) :
  StronglySorted Z.le (m_timestamp <$> sort_messages all_messages).
Proof.
  apply Sorted_StronglySorted; [apply _|].
  eapply Sorted_fmap;
    [|apply (sorted_by_Sorted tuple_ltb message_key tuple_ltb_asym)].
  intros a b. unfold not_after, tuple_ltb, message_key; cbn.
  destruct (Z.eqb_spec (m_timestamp b) (m_timestamp a)) as [->|Hne]; [lia|].
  lia.
Qed.

Lemma sort_messages_perm (all_messages : list Message) :
  sort_messages all_messages ≡ₚ all_messages.
Proof. apply sorted_by_perm. Qed.

(** ** Facts about the result monad *)

Lemma bind_Ok_inv {A B : Type} (r : result A) (k : A → result B) (b : B) :
  r ≫= k = Ok b → ∃ a, r = Ok a ∧ k a = Ok b.
Proof. destruct r as [a|e]; [eauto | discriminate]. Qed.

Lemma bind_raises {A B : Type} (r : result A) (k : A → result B) :
  raises r → raises (r ≫= k).
Proof. intros [e ->]. by exists e. Qed.

Ltac inv_bind H :=
  let a := fresh "a" in
  let Ha := fresh "Ha" in
  apply bind_Ok_inv in H as (a & Ha & H).

Lemma map_result_Ok_Forall2 {A B : Type} (f : A → result B) (l : list A) (ys : list B) :
  map_result f l = Ok ys ↔ Forall2 (λ x y, f x = Ok y) l ys.
Proof.
  revert ys. induction l as [|x l IH]; intros ys; cbn.
  - split; [intros [= <-]; constructor | by inversion 1].
  - split.
    + intros H. inv_bind H. inv_bind H. injection H as <-.
      constructor; [done | by apply IH].
    + inversion 1 as [|? y ? ys' Hx Hl]; subst.
      rewrite Hx. cbn. apply IH in Hl. rewrite Hl. reflexivity.
Qed.

Lemma map_result_total {A B : Type} (f : A → result B) (l : list A) :
  (∀ x, x ∈ l → ∃ y, f x = Ok y) → ∃ ys, map_result f l = Ok ys.
Proof.
  induction l as [|x l IH]; intros Hall; cbn; [eauto|].
  destruct (Hall x) as [y Hy]; [left|]. rewrite Hy. cbn.
  destruct IH as [ys Hys]; [intros; apply Hall; by right|].
  rewrite Hys. cbn. eauto.
Qed.

Lemma map_result_raises {A B : Type} (f : A → result B) (l : list A) (x : A) :
  x ∈ l → raises (f x) → raises (map_result f l).
Proof.
  intros Hin [e He]. induction l as [|y l IH]; [by apply elem_of_nil in Hin|].
  cbn. destruct (f y) as [b|e'] eqn:Hy; [|by eexists].
  apply elem_of_cons in Hin as [->|Hin]; [congruence|].
  destruct (IH Hin) as [e' ->]. by eexists.
Qed.

Lemma fold_result_app {A S : Type} (f : S → A → result S) (l1 l2 : list A) (acc : S) :
  fold_result f (l1 ++ l2) acc = fold_result f l1 acc ≫= fold_result f l2.
Proof.
  revert acc. induction l1 as [|x l1 IH]; intros acc; cbn; [done|].
  destruct (f acc x); cbn; [apply IH | done].
Qed.

Lemma fold_result_raises {A S : Type} (f : S → A → result S) (l : list A) (x : A) :
  x ∈ l → (∀ acc, raises (f acc x)) → ∀ acc, raises (fold_result f l acc).
Proof.
  intros Hin Hx. induction l as [|y l IH]; intros acc; [by apply elem_of_nil in Hin|].
  cbn. destruct (f acc y) as [acc'|e] eqn:Hy; [|by eexists].
  apply elem_of_cons in Hin as [->|Hin].
  - destruct (Hx acc) as [e He]. congruence.
  - cbn. by apply IH.
Qed.

(** ** Column order *)

Lemma Z_ltb_asym (a b : Z) : (a <? b) = true → (b <? a) = false.
Proof. lia. Qed.

(** What line 91 yields: a permutation of the keys, every suffix of
    which parses, in non-decreasing order of the parsed suffix. *)
Lemma sort_keys_Ok (keys sorted_keys : list string) :
  sort_keys keys = Ok sorted_keys →
  sorted_keys ≡ₚ keys
  ∧ ∃ suffixes, Forall2 (λ k n, suffix_key k = Ok n) sorted_keys suffixes
                ∧ StronglySorted Z.le suffixes.
Proof.
  unfold sort_keys. intros H. inv_bind H. injection H as <-.
  rename a into keyed.
  apply map_result_Ok_Forall2 in Ha.
  assert (Hfst : keyed.*1 = keys).
  { induction Ha as [|x [x' n] l l' Hx _ IH]; [done|].
    cbn. inv_bind Hx. injection Hx as <- _. by rewrite IH. }
  assert (Hpair : ∀ p, p ∈ keyed → suffix_key p.1 = Ok p.2).
  { clear Hfst. induction Ha as [|x [x' n] l l' Hx _ IH]; intros p Hp.
    - by apply elem_of_nil in Hp.
    - apply elem_of_cons in Hp as [->|Hp]; [|by apply IH].
      inv_bind Hx. injection Hx as <- <-. done. }
  pose proof (sorted_by_perm Z.ltb snd keyed) as Hperm.
  split.
  - rewrite <- Hfst. by apply fmap_Permutation.
  - exists ((sorted_by Z.ltb snd keyed).*2). split.
    + apply Forall2_fmap. apply Forall_Forall2_diag. apply Forall_forall.
      intros p Hp. apply Hpair. by rewrite <- Hperm.
    + apply Sorted_StronglySorted; [apply _|].
      eapply Sorted_fmap; [|apply (sorted_by_Sorted Z.ltb snd Z_ltb_asym)].
      intros a b. unfold not_after. lia.
Qed.

Lemma sort_keys_total (keys : list string) :
  (∀ k, k ∈ keys → ∃ n, suffix_key k = Ok n) → ∃ sorted_keys, sort_keys keys = Ok sorted_keys.
Proof.
  intros Hall. unfold sort_keys.
  destruct (map_result_total (λ x, n ← suffix_key x; Ok (x, n)) keys) as [keyed ->].
  - intros x Hx. destruct (Hall x Hx) as [n ->]. cbn. eauto.
  - cbn. eauto.
Qed.

Lemma make_index_dict_snoc (l : list string) (x : string) :
  make_index_dict (l ++ [x]) = <[x := length l]> (make_index_dict l).
Proof.
  unfold make_index_dict. rewrite imap_app, foldl_app. cbn.
  by rewrite Nat.add_0_r.
Qed.

(** The index dictionary maps a worker to a column that carries it. *)
Lemma make_index_dict_lookup (sorted_keys : list string) (k : string) (i : nat) :
  make_index_dict sorted_keys !! k = Some i → sorted_keys !! i = Some k.
Proof.
  revert i. induction sorted_keys as [|x l IH] using rev_ind; intros i.
  - unfold make_index_dict. cbn. by rewrite lookup_empty.
  - rewrite make_index_dict_snoc. destruct (decide (x = k)) as [->|Hne].
    + rewrite lookup_insert_eq. intros [= <-]. by rewrite list_lookup_middle.
    + rewrite lookup_insert_ne by done. intros Hi.
      pose proof (IH _ Hi) as Hl. rewrite lookup_app_l; [done|].
      by eapply lookup_lt_Some.
Qed.

Lemma make_index_dict_is_Some (sorted_keys : list string) (k : string) :
  is_Some (make_index_dict sorted_keys !! k) ↔ k ∈ sorted_keys.
Proof.
  split.
  - intros [i Hi]. eapply list_elem_of_lookup_2, make_index_dict_lookup, Hi.
  - induction sorted_keys as [|x l IH] using rev_ind; [by intros ?%elem_of_nil|].
    rewrite make_index_dict_snoc, elem_of_app, list_elem_of_singleton.
    destruct (decide (x = k)) as [->|Hne].
    + rewrite lookup_insert_eq. eauto.
    + rewrite lookup_insert_ne by done. intros [?|?]; [auto | congruence].
Qed.

Lemma make_index_dict_NoDup (sorted_keys : list string) (k : string) (i : nat) :
  NoDup sorted_keys → sorted_keys !! i = Some k → make_index_dict sorted_keys !! k = Some i.
Proof.
  intros Hnd Hi.
  destruct (make_index_dict_is_Some sorted_keys k) as [_ [j Hj]].
  { by eapply list_elem_of_lookup_2. }
  pose proof (make_index_dict_lookup _ _ _ Hj) as Hj'.
  by rewrite (NoDup_lookup _ _ _ _ Hnd Hi Hj').
Qed.

(** ** The aligner, one message at a time *)

Lemma dict_set_set {K V : Type} `{EqDecision K} (k : K) (v v0 : V) (d : dict K V) :
  dict_set k v (dict_set k v0 d) = dict_set k v d.
Proof.
  induction d as [|[k' v'] d IH]; cbn.
  - by rewrite decide_True.
  - destruct (decide (k = k')) as [->|Hne]; cbn.
    + by rewrite decide_True.
    + rewrite decide_False by done. by rewrite IH.
Qed.

Section Place.
Context (first_timestamp : Z) (width : nat) (index_dict : gmap string nat).

Local Abbreviation step := (place first_timestamp width index_dict).
Local Abbreviation rel m := (m_timestamp m - first_timestamp).
Local Abbreviation target_row t m :=
  (default (replicate width None) (dict_get (rel m) t)).

Lemma place_unfold (t : Matrix) (m : Message) :
  step t m =
    match index_dict !! m_from m with
    | Some i =>
        if decide (i < length (target_row t m))%nat
        then Ok (dict_set (rel m) (<[i := Some m]> (target_row t m)) t)
        else Raise IndexError
    | None => Raise (KeyError (m_from m))
    end.
Proof.
  unfold place, dict_setdefault, list_setitem. cbv zeta.
  destruct (dict_get (rel m) t) as [row|] eqn:Hg; cbn;
    destruct (index_dict !! m_from m) as [i|]; cbn; try done.
  - by destruct (decide _).
  - destruct (decide _); cbn; [|done]. by rewrite dict_set_set.
Qed.

Lemma place_unknown_worker (t : Matrix) (m : Message) :
  index_dict !! m_from m = None → step t m = Raise (KeyError (m_from m)).
Proof. intros Hnone. by rewrite place_unfold, Hnone. Qed.

Lemma target_row_length (t : Matrix) (m : Message) :
  rows_width width t → length (target_row t m) = width.
Proof.
  intros Hw. destruct (dict_get (rel m) t) as [row|] eqn:Hg; cbn.
  - by eapply Hw.
  - apply length_replicate.
Qed.

Lemma place_Ok_inv (t t' : Matrix) (m : Message) :
  rows_width width t → step t m = Ok t' →
  ∃ i, index_dict !! m_from m = Some i ∧ (i < width)%nat
       ∧ t' = dict_set (rel m) (<[i := Some m]> (target_row t m)) t.
Proof.
  intros Hw. rewrite place_unfold.
  destruct (index_dict !! m_from m) as [i|]; [|done].
  rewrite (target_row_length _ _ Hw).
  destruct (decide (i < width)%nat); [|done].
  intros [= <-]. eauto.
Qed.

Lemma place_rows_width (t t' : Matrix) (m : Message) :
  rows_width width t → step t m = Ok t' → rows_width width t'.
Proof.
  intros Hw Hstep.
  destruct (place_Ok_inv _ _ _ Hw Hstep) as (i & _ & _ & ->).
  intros r row. destruct (decide (rel m = r)) as [<-|Hne].
  - rewrite dict_get_set_eq. intros [= <-].
    rewrite length_insert. by apply target_row_length.
  - rewrite dict_get_set_ne by done. apply Hw.
Qed.

Lemma place_keys (t t' : Matrix) (m : Message) :
  rows_width width t → step t m = Ok t' →
  dict_keys t' = if decide (rel m ∈ dict_keys t) then dict_keys t
                 else dict_keys t ++ [rel m].
Proof.
  intros Hw Hstep.
  destruct (place_Ok_inv _ _ _ Hw Hstep) as (i & _ & _ & ->).
  destruct (decide _); [by apply dict_keys_set_old | by apply dict_keys_set_new].
Qed.

Lemma place_slot (t t' : Matrix) (m : Message) (r : Z) (c : nat) :
  rows_width width t → step t m = Ok t' →
  slot t' r c = if decide (rel m = r ∧ index_dict !! m_from m = Some c)
                then Some m else slot t r c.
Proof.
  intros Hw Hstep.
  destruct (place_Ok_inv _ _ _ Hw Hstep) as (i & Hi & Hlt & ->).
  pose proof (target_row_length t m Hw) as Hlen.
  unfold slot. destruct (decide (rel m = r)) as [<-|Hne].
  - rewrite dict_get_set_eq. destruct (decide (i = c)) as [<-|Hic].
    + rewrite list_lookup_insert_eq by lia. by rewrite decide_True.
    + rewrite list_lookup_insert_ne by done.
      rewrite decide_False by (intros [_ ?]; congruence).
      destruct (dict_get (rel m) t) as [row|]; cbn; [done|].
      destruct (replicate width None !! c) as [o|] eqn:Hr; [|done].
      by apply lookup_replicate_1 in Hr as [-> _].
  - rewrite dict_get_set_ne by done. by rewrite decide_False by tauto.
Qed.

(** The loop of lines 95-97 succeeds when every worker has a column. *)
Lemma fold_place_total (l : list Message) (t : Matrix) :
  rows_width width t →
  (∀ m, m ∈ l → ∃ i, index_dict !! m_from m = Some i ∧ (i < width)%nat) →
  ∃ t', fold_result step l t = Ok t'.
Proof.
  revert t. induction l as [|m l IH]; intros t Hw Hall; cbn; [eauto|].
  destruct (Hall m) as (i & Hi & Hlt); [left|].
  assert (Hstep : step t m = Ok (dict_set (rel m) (<[i := Some m]> (target_row t m)) t)).
  { rewrite place_unfold, Hi, (target_row_length _ _ Hw). by rewrite decide_True. }
  rewrite Hstep. cbn. apply IH.
  - eapply place_rows_width; [exact Hw | exact Hstep].
  - intros m' Hm'. apply Hall. by right.
Qed.

Lemma fold_place_rows_width (l : list Message) (t t' : Matrix) :
  rows_width width t → fold_result step l t = Ok t' → rows_width width t'.
Proof.
  revert t. induction l as [|m l IH]; intros t Hw; cbn.
  - by intros [= <-].
  - intros H. inv_bind H. eapply IH; [|exact H]. by eapply place_rows_width.
Qed.

Lemma fold_place_keys_NoDup (l : list Message) (t t' : Matrix) :
  rows_width width t → NoDup (dict_keys t) →
  fold_result step l t = Ok t' → NoDup (dict_keys t').
Proof.
  revert t. induction l as [|m l IH]; intros t Hw Hnd; cbn.
  - by intros [= <-].
  - intros H. inv_bind H. eapply IH; [| |exact H].
    + by eapply place_rows_width.
    + destruct (place_Ok_inv _ _ _ Hw Ha) as (i & _ & _ & ->).
      by apply dict_keys_set_NoDup.
Qed.

(** Messages in non-decreasing order of timestamp open their rows in
    strictly increasing order of relative timestamp. *)
Lemma fold_place_keys_ascending (l : list Message) (t t' : Matrix) :
  rows_width width t →
  StronglySorted Z.le (m_timestamp <$> l) →
  StronglySorted Z.lt (dict_keys t) →
  (∀ k m, k ∈ dict_keys t → m ∈ l → k ≤ rel m) →
  fold_result step l t = Ok t' →
  StronglySorted Z.lt (dict_keys t').
Proof.
  revert t. induction l as [|m l IH]; intros t Hw Hts Hkeys Hbound; cbn.
  - by intros [= <-].
  - intros H. inv_bind H. rename a into t1.
    apply StronglySorted_cons in Hts as [Hm Hts]. rewrite Forall_forall in Hm.
    pose proof (place_keys _ _ _ Hw Ha) as Hk.
    eapply IH; [| exact Hts | | | exact H].
    + by eapply place_rows_width.
    + rewrite Hk. destruct (decide _) as [Hin|Hnin]; [done|].
      apply StronglySorted_snoc_lt; [done|].
      intros k Hkin. assert (k ≤ rel m) by (apply Hbound; [done | left]).
      assert (k ≠ rel m) by congruence. lia.
    + intros k m' Hkin Hm'. rewrite Hk in Hkin.
      assert (Hle : m_timestamp m ≤ m_timestamp m')
        by (apply Hm; by apply list_elem_of_fmap_2).
      destruct (decide _) as [Hin|Hnin].
      * apply Hbound; [done | by right].
      * apply elem_of_app in Hkin as [Hkin | ->%list_elem_of_singleton]; [|lia].
        apply Hbound; [done | by right].
Qed.

(** After the loop every slot holds the last message written to it. *)
Lemma fold_place_slot (l : list Message) (t' : Matrix) (r : Z) (c : nat) :
  fold_result step l [] = Ok t' →
  slot t' r c =
    last (filter (λ m, rel m = r ∧ index_dict !! m_from m = Some c) l).
Proof.
  revert t'. induction l as [|m l IH] using rev_ind; intros t'.
  - cbn. by intros [= <-].
  - rewrite fold_result_app. intros H. inv_bind H. rename a into t1.
    cbn in H. inv_bind H. injection H as ->.
    assert (Hw : rows_width width t1).
    { eapply fold_place_rows_width; [|exact Ha]. intros ? ? [=]. }
    rewrite (place_slot _ _ _ r c Hw Ha0), filter_app, (IH _ Ha).
    rewrite filter_cons, filter_nil.
    destruct (decide _); [by rewrite last_snoc | by rewrite app_nil_r].
Qed.
End Place.

(** ** The aligner as a whole *)

Lemma align_Ok_inv all_messages block_logs sorted_keys (t : Matrix) :
  align all_messages block_logs = Ok (sorted_keys, t) →
  ∃ first rest,
    all_messages = first :: rest
    ∧ sort_keys (dict_keys block_logs) = Ok sorted_keys
    ∧ fold_result (place (m_timestamp first) (length block_logs)
                     (make_index_dict sorted_keys)) all_messages [] = Ok t.
Proof.
  unfold align. intros H. inv_bind H.
  destruct all_messages as [|first rest]; [done|]. injection Ha as <-.
  inv_bind H. inv_bind H. injection H as <- <-. eauto.
Qed.

Lemma sort_keys_length keys sorted_keys :
  sort_keys keys = Ok sorted_keys → length sorted_keys = length keys.
Proof. intros H. apply sort_keys_Ok in H as [Hp _]. by rewrite Hp. Qed.

Lemma rows_width_nil (n : nat) : rows_width n [].
Proof. intros ? ? [=]. Qed.

(** C6: a message whose [from] worker is not a key of the block log
    makes the construction of the timeline matrix raise, so that no
    table is produced. *)
Theorem unknown_worker_raises all_messages block_logs message :
  message ∈ all_messages →
  m_from message ∉ dict_keys block_logs →
  raises (align all_messages block_logs)
  ∧ raises (html_dict_to_html_table all_messages block_logs).
Proof.
  intros Hin Hnot.
  assert (Hal : raises (align all_messages block_logs)).
  { destruct all_messages as [|first rest]; [by apply elem_of_nil in Hin|].
    change (align (first :: rest) block_logs) with
      (sort_keys (dict_keys block_logs) ≫= λ sorted_keys,
         fold_result (place (m_timestamp first) (length block_logs)
                        (make_index_dict sorted_keys)) (first :: rest) []
         ≫= λ t, Ok (sorted_keys, t)).
    destruct (sort_keys (dict_keys block_logs)) as [sorted_keys|e] eqn:Hsk;
      [|by eexists].
    change (Ok sorted_keys ≫= ?k) with (k sorted_keys). cbv beta.
    apply bind_raises, (fold_result_raises _ _ message Hin).
    intros acc. eexists. apply place_unknown_worker.
    apply eq_None_not_Some. rewrite make_index_dict_is_Some.
    apply sort_keys_Ok in Hsk as [Hp _]. by rewrite Hp. }
  split; [done|].
  destruct Hal as [e He]. unfold html_dict_to_html_table. rewrite He. by eexists.
Qed.

Lemma unknown_worker_raises_witness :
  let message := {| m_from := "B7"; m_timestamp := 4; m_type := "FOUND_RESULT";
                    m_payload := "" |} in
  raises (align [scenario_message "p"; message] (scenario_logs [] [] "p"))
  ∧ raises (html_dict_to_html_table [scenario_message "p"; message]
              (scenario_logs [] [] "p")).
Proof.
  intros message.
  apply (unknown_worker_raises [scenario_message "p"; message]
           (scenario_logs [] [] "p") message).
  - right. left.
  - apply (bool_decide_unpack _). vm_compute. exact I.
Defined.

(** ** The rendered table *)

Lemma cell_texts_th (headers : list string) :
  cell_texts (map (λ key, Elem "th" [] [Text key]) headers) = headers.
Proof.
  unfold cell_texts. induction headers as [|h l IH]; [done|].
  cbn. by rewrite IH.
Qed.

Lemma render_table_Ok_inv block_logs sorted_keys (t : Matrix) table :
  render_table block_logs sorted_keys t = Ok table →
  ∃ rows,
    Forall2 (λ entry tr, render_row block_logs entry = Ok tr) t rows
    ∧ table_headers table = "time"%string :: sorted_keys
    ∧ table_rows table = rows.
Proof.
  unfold render_table. intros H. inv_bind H. injection H as <-.
  exists a. split; [by apply map_result_Ok_Forall2|].
  split; [|done].
  unfold table_headers. apply (cell_texts_th ("time"%string :: sorted_keys)).
Qed.

Lemma render_row_Ok_inv block_logs (entry : Z * Row) tr :
  render_row block_logs entry = Ok tr →
  row_time tr = Some (str_of_int entry.1)
  ∧ Forall2 (λ msg td, render_cell block_logs msg = Ok td) entry.2 (row_cells tr).
Proof.
  unfold render_row. intros H. inv_bind H. injection H as <-.
  split; [done|]. by apply map_result_Ok_Forall2.
Qed.

Lemma html_dict_to_html_table_Ok_inv all_messages block_logs table :
  html_dict_to_html_table all_messages block_logs = Ok table →
  ∃ sorted_keys (t : Matrix),
    align all_messages block_logs = Ok (sorted_keys, t)
    ∧ render_table block_logs sorted_keys t = Ok table.
Proof.
  unfold html_dict_to_html_table. intros H. inv_bind H.
  destruct a as [sorted_keys t]. eauto.
Qed.

(** The table written by [main] is the table of the sorted messages of
    the block-analysis file. *)
Lemma main_report_inv (fs : Files) table :
  report_table (main fs).1 = Some table →
  html_dict_to_html_table (sort_messages (collect_messages (block_analysis fs)))
    (block_analysis fs) = Ok table.
Proof.
  unfold main. destruct (collect_messages (block_analysis fs)) as [|m l]; [done|].
  destruct (html_dict_to_html_table _ _) as [table'|e]; [|done].
  destruct (visualize fs) as [written [u|e]]; cbn; by intros [= ->].
Qed.

(** Header and width of a rendered table. *)
Lemma table_columns all_messages block_logs table :
  html_dict_to_html_table all_messages block_logs = Ok table →
  ∃ sorted_keys suffixes,
    table_headers table = "time"%string :: sorted_keys
    ∧ sorted_keys ≡ₚ dict_keys block_logs
    ∧ Forall2 (λ k n, suffix_key k = Ok n) sorted_keys suffixes
    ∧ StronglySorted Z.le suffixes
    ∧ ∀ tr, tr ∈ table_rows table → length (row_cells tr) = length sorted_keys.
Proof.
  intros H. apply html_dict_to_html_table_Ok_inv in H as (sorted_keys & t & Hal & Hr).
  apply align_Ok_inv in Hal as (first & rest & -> & Hsk & Hfold).
  apply render_table_Ok_inv in Hr as (rows & Hrows & Hh & Htr).
  destruct (sort_keys_Ok _ _ Hsk) as (Hp & suffixes & Hsuf & Hsorted).
  exists sorted_keys, suffixes. repeat split; try done.
  intros tr Hin. rewrite Htr in Hin.
  apply list_elem_of_lookup_1 in Hin as [i Hi].
  destruct (Forall2_lookup_r _ _ _ _ _ Hrows Hi) as (entry & Hentry & Hrow).
  apply render_row_Ok_inv in Hrow as [_ Hcells].
  rewrite <- (Forall2_length _ _ _ Hcells).
  assert (Hw : rows_width (length block_logs) t).
  { eapply fold_place_rows_width; [apply rows_width_nil | exact Hfold]. }
  destruct entry as [r row]. cbn.
  rewrite (Hw r row).
  - rewrite Hp. unfold dict_keys. by rewrite length_fmap.
  - apply dict_get_NoDup; [|by eapply list_elem_of_lookup_2].
    eapply fold_place_keys_NoDup; [apply rows_width_nil | apply NoDup_nil_2 | exact Hfold].
Qed.

(** C5 as stated fails: the columns come from the block-analysis file.
    With one worker there and two in the summary file the table has one
    data column. *)
Lemma columns_not_from_summary_counterexample :
  ∃ table,
    report_table (main two_files).1 = Some table
    ∧ table_headers table = ["time"; "B0"]%string
    ∧ dict_keys (summary two_files) = ["B0"; "B1"]%string
    ∧ length (table_headers table) ≠ S (length (dict_keys (summary two_files))).
Proof.
  eexists. split; [vm_compute; reflexivity|].
  split; [vm_compute; reflexivity|].
  split; [vm_compute; reflexivity|].
  vm_compute. lia.
Qed.

(** C5, amended: the table in the report has the leading "time" column
    and one data column per worker identifier of the block-analysis file
    (the header cells after "time" are a permutation of its keys, and
    every data row has as many cells); the columns are in non-decreasing
    order of the numeric suffix of the identifiers. *)
Theorem table_columns_of_block_analysis (fs : Files) table :
  report_table (main fs).1 = Some table →
  ∃ sorted_keys suffixes,
    table_headers table = "time"%string :: sorted_keys
    ∧ sorted_keys ≡ₚ dict_keys (block_analysis fs)
    ∧ Forall2 (λ k n, suffix_key k = Ok n) sorted_keys suffixes
    ∧ StronglySorted Z.le suffixes
    ∧ ∀ tr, tr ∈ table_rows table → length (row_cells tr) = length sorted_keys.
Proof. intros H. eapply table_columns, main_report_inv, H. Qed.

Lemma table_columns_of_block_analysis_witness :
  report_table (main demo_files).1 = Some demo_table
  ∧ ∃ sorted_keys suffixes,
      table_headers demo_table = "time"%string :: sorted_keys
      ∧ sorted_keys ≡ₚ dict_keys (block_analysis demo_files)
      ∧ Forall2 (λ k n, suffix_key k = Ok n) sorted_keys suffixes
      ∧ StronglySorted Z.le suffixes
      ∧ ∀ tr, tr ∈ table_rows demo_table → length (row_cells tr) = length sorted_keys.
Proof.
  assert (H : report_table (main demo_files).1 = Some demo_table)
    by (vm_compute; reflexivity).
  split; [exact H|].
  exact (table_columns_of_block_analysis demo_files demo_table H).
Defined.

Example demo_table_headers :
  table_headers demo_table = ["time"; "B1"; "B2"; "B10"]%string.
Proof. vm_compute. reflexivity. Qed.

(** ** Row order *)

Lemma StronglySorted_lookup_lt {A : Type} (R : A → A → Prop) (l : list A) i j a b :
  StronglySorted R l → (i < j)%nat → l !! i = Some a → l !! j = Some b → R a b.
Proof.
  intros Hs. revert i j. induction Hs as [|x l Hs IH Hall]; intros i j Hij Hi Hj.
  - done.
  - destruct j as [|j]; [lia|]. cbn in Hj. destruct i as [|i]; cbn in Hi.
    + injection Hi as ->. rewrite Forall_forall in Hall.
      by eapply Hall, list_elem_of_lookup_2.
    + eapply (IH i j); [lia | done | done].
Qed.

Lemma render_rows_times block_logs (t : Matrix) rows :
  Forall2 (λ entry tr, render_row block_logs entry = Ok tr) t rows →
  row_time <$> rows = (λ r, Some (str_of_int r)) <$> dict_keys t.
Proof.
  unfold dict_keys. induction 1 as [|entry tr t rows Hrow _ IH]; [done|].
  cbn. apply render_row_Ok_inv in Hrow as [-> _]. by rewrite IH.
Qed.

(** Rows of a table built from messages in non-decreasing order of
    timestamp. *)
Lemma rows_ascending_of_sorted all_messages block_logs table :
  StronglySorted Z.le (m_timestamp <$> all_messages) →
  html_dict_to_html_table all_messages block_logs = Ok table →
  ∃ keys,
    row_time <$> table_rows table = (λ r, Some (str_of_int r)) <$> keys
    ∧ StronglySorted Z.lt keys.
Proof.
  intros Hts H.
  apply html_dict_to_html_table_Ok_inv in H as (sorted_keys & t & Hal & Hr).
  apply align_Ok_inv in Hal as (first & rest & -> & Hsk & Hfold).
  apply render_table_Ok_inv in Hr as (rows & Hrows & _ & ->).
  exists (dict_keys t). split; [by eapply render_rows_times|].
  eapply fold_place_keys_ascending; [apply rows_width_nil | exact Hts | | | exact Hfold].
  - constructor.
  - intros k m Hk. by apply elem_of_nil in Hk.
Qed.

(** C1: for every message list, the table rendered from the list as
    [main] passes it on (sorted by timestamp and identifier suffix, line
    155) emits its data rows in ascending order of relative timestamp:
    the first cells of the rows are the texts of keys [r1], [r2], ... and
    a key emitted before another one is smaller.  (A rendered table
    exists only for a non-empty list.) *)
Theorem rows_ascending all_messages block_logs table :
  html_dict_to_html_table (sort_messages all_messages) block_logs = Ok table →
  ∃ keys,
    row_time <$> table_rows table = (λ r, Some (str_of_int r)) <$> keys
    ∧ ∀ i j r1 r2, (i < j)%nat → keys !! i = Some r1 → keys !! j = Some r2 → r1 < r2.
Proof.
  intros H.
  destruct (rows_ascending_of_sorted _ _ _ (sort_messages_timestamps all_messages) H)
    as (keys & Hrows & Hsorted).
  exists keys. split; [done|].
  intros i j r1 r2 Hij Hi Hj. by eapply (StronglySorted_lookup_lt Z.lt keys i j).
Qed.

Lemma rows_ascending_witness :
  html_dict_to_html_table (sort_messages demo_messages) demo_logs = Ok demo_table
  ∧ ∃ keys,
      row_time <$> table_rows demo_table = (λ r, Some (str_of_int r)) <$> keys
      ∧ ∀ i j r1 r2, (i < j)%nat → keys !! i = Some r1 → keys !! j = Some r2 → r1 < r2.
Proof.
  assert (H : html_dict_to_html_table (sort_messages demo_messages) demo_logs
              = Ok demo_table) by (vm_compute; reflexivity).
  split; [exact H|].
  exact (rows_ascending demo_messages demo_logs demo_table H).
Defined.

Example demo_row_times :
  row_time <$> table_rows demo_table = [Some "0"; Some "2"; Some "4"]%string.
Proof. vm_compute. reflexivity. Qed.

(** The same holds for the table [main] writes into the report. *)
Corollary main_rows_ascending (fs : Files) table :
  report_table (main fs).1 = Some table →
  ∃ keys,
    row_time <$> table_rows table = (λ r, Some (str_of_int r)) <$> keys
    ∧ StronglySorted Z.lt keys.
Proof.
  intros H. apply main_report_inv in H.
  eapply rows_ascending_of_sorted; [apply sort_messages_timestamps | exact H].
Qed.

(** The renderer itself does not sort: handed the unsorted messages of
    the demo log it emits the rows in the order their keys were first
    seen. *)
Remark unsorted_rows_in_insertion_order :
  ∃ table,
    html_dict_to_html_table demo_messages demo_logs = Ok table
    ∧ row_time <$> table_rows table = [Some "0"; Some "-2"; Some "2"]%string.
Proof. eexists. split; vm_compute; reflexivity. Qed.

(** ** Placement of the messages *)

Lemma align_cons first rest block_logs :
  align (first :: rest) block_logs =
    sort_keys (dict_keys block_logs) ≫= λ sorted_keys,
      fold_result (place (m_timestamp first) (length block_logs)
                     (make_index_dict sorted_keys)) (first :: rest) []
      ≫= λ t, Ok (sorted_keys, t).
Proof. reflexivity. Qed.

(** C4: when every [from] worker is a key of the block log (a dictionary
    whose identifiers have a numeric suffix), alignment succeeds and
    - every slot (row [r], column [c]) holds the last message of the list
      whose timestamp minus the first message's timestamp is [r] and whose
      worker owns column [c], and is empty when there is none: a later
      message overwrites an earlier one of the same worker and relative
      timestamp;
    - every input message is thereby written to the slot of its relative
      timestamp and worker, which finally holds a message of that worker
      and timestamp;
    - a message sits in no other slot than that one, and a slot holds at
      most one message. *)
Theorem align_last_write_wins all_messages block_logs first :
  NoDup (dict_keys block_logs) →
  (∀ k, k ∈ dict_keys block_logs → ∃ n, suffix_key k = Ok n) →
  head all_messages = Some first →
  (∀ m, m ∈ all_messages → m_from m ∈ dict_keys block_logs) →
  ∃ sorted_keys (matrix : Matrix),
    align all_messages block_logs = Ok (sorted_keys, matrix)
    ∧ sorted_keys ≡ₚ dict_keys block_logs
    ∧ NoDup (dict_keys matrix)
    ∧ rows_width (length sorted_keys) matrix
    ∧ (∀ r c,
         slot matrix r c =
           last (filter (λ m, m_timestamp m - m_timestamp first = r
                              ∧ sorted_keys !! c = Some (m_from m)) all_messages))
    ∧ (∀ m, m ∈ all_messages →
         ∃ c m',
           sorted_keys !! c = Some (m_from m)
           ∧ slot matrix (m_timestamp m - m_timestamp first) c = Some m'
           ∧ m_from m' = m_from m ∧ m_timestamp m' = m_timestamp m)
    ∧ (∀ r c m,
         slot matrix r c = Some m →
         m ∈ all_messages
         ∧ r = m_timestamp m - m_timestamp first
         ∧ sorted_keys !! c = Some (m_from m))
    ∧ (∀ r c r' c' m,
         slot matrix r c = Some m → slot matrix r' c' = Some m → r = r' ∧ c = c').
Proof.
  intros Hnd Hparse Hhead Hfrom.
  destruct all_messages as [|first' rest]; [done|]. injection Hhead as ->.
  destruct (sort_keys_total _ Hparse) as [sorted_keys Hsk].
  destruct (sort_keys_Ok _ _ Hsk) as [Hp _].
  assert (Hnd' : NoDup sorted_keys) by by rewrite Hp.
  assert (Hlen : length sorted_keys = length block_logs).
  { rewrite Hp. unfold dict_keys. by rewrite length_fmap. }
  set (idx := make_index_dict sorted_keys).
  assert (Hidx : ∀ k c, idx !! k = Some c ↔ sorted_keys !! c = Some k).
  { intros k c. split; [apply make_index_dict_lookup | by apply make_index_dict_NoDup]. }
  destruct (fold_place_total (m_timestamp first) (length block_logs) idx
              (first :: rest) [] (rows_width_nil _)) as [t Hfold].
  { intros m Hm. destruct (make_index_dict_is_Some sorted_keys (m_from m)) as [_ [i Hi]].
    { rewrite Hp. by apply Hfrom. }
    exists i. split; [done|]. rewrite <- Hlen.
    eapply lookup_lt_Some, make_index_dict_lookup, Hi. }
  assert (Hslot : ∀ r c,
    slot t r c = last (filter (λ m, m_timestamp m - m_timestamp first = r
                                    ∧ sorted_keys !! c = Some (m_from m)) (first :: rest))).
  { intros r c. rewrite (fold_place_slot _ _ _ _ _ r c Hfold).
    f_equal. apply list_filter_iff. intros m. by rewrite Hidx. }
  assert (Hin : ∀ r c m, slot t r c = Some m →
    m ∈ first :: rest ∧ r = m_timestamp m - m_timestamp first
    ∧ sorted_keys !! c = Some (m_from m)).
  { intros r c m. rewrite Hslot. intros Hl.
    apply last_Some_elem_of, list_elem_of_filter in Hl as [[Hr Hc] Hm]. done. }
  exists sorted_keys, t.
  split. { rewrite align_cons, Hsk. cbn -[fold_result]. unfold idx in Hfold.
           by rewrite Hfold. }
  split; [done|].
  split. { eapply fold_place_keys_NoDup;
             [apply rows_width_nil | apply NoDup_nil_2 | exact Hfold]. }
  split. { rewrite Hlen. eapply fold_place_rows_width; [apply rows_width_nil | exact Hfold]. }
  split; [exact Hslot|].
  split.
  - intros m Hm.
    destruct (make_index_dict_is_Some sorted_keys (m_from m)) as [_ [c Hc]].
    { rewrite Hp. by apply Hfrom. }
    apply Hidx in Hc. exists c.
    destruct (slot t (m_timestamp m - m_timestamp first) c) as [m'|] eqn:Hs.
    + exists m'. split; [done|]. split; [done|].
      apply Hin in Hs as (_ & Hr & Hc').
      split; [congruence | lia].
    + exfalso. rewrite Hslot in Hs. apply last_None in Hs.
      assert (Hmem : m ∈ filter (λ m0, m_timestamp m0 - m_timestamp first
                                        = m_timestamp m - m_timestamp first
                                      ∧ sorted_keys !! c = Some (m_from m0)) (first :: rest)).
      { apply list_elem_of_filter. done. }
      rewrite Hs in Hmem. by apply elem_of_nil in Hmem.
  - split; [exact Hin|].
    intros r c r' c' m H1 H2.
    apply Hin in H1 as (_ & -> & Hc). apply Hin in H2 as (_ & -> & Hc').
    split; [done|]. by eapply NoDup_lookup.
Qed.

Lemma align_last_write_wins_witness :
  ∃ sorted_keys (matrix : Matrix),
    align (sort_messages demo_messages) demo_logs = Ok (sorted_keys, matrix)
    ∧ sorted_keys ≡ₚ dict_keys demo_logs
    ∧ NoDup (dict_keys matrix)
    ∧ rows_width (length sorted_keys) matrix
    ∧ (∀ r c,
         slot matrix r c =
           last (filter (λ m, m_timestamp m - 5 = r
                              ∧ sorted_keys !! c = Some (m_from m))
                   (sort_messages demo_messages)))
    ∧ (∀ m, m ∈ sort_messages demo_messages →
         ∃ c m',
           sorted_keys !! c = Some (m_from m)
           ∧ slot matrix (m_timestamp m - 5) c = Some m'
           ∧ m_from m' = m_from m ∧ m_timestamp m' = m_timestamp m)
    ∧ (∀ r c m,
         slot matrix r c = Some m →
         m ∈ sort_messages demo_messages
         ∧ r = m_timestamp m - 5
         ∧ sorted_keys !! c = Some (m_from m))
    ∧ (∀ r c r' c' m,
         slot matrix r c = Some m → slot matrix r' c' = Some m → r = r' ∧ c = c').
Proof.
  apply (align_last_write_wins (sort_messages demo_messages) demo_logs
           {| m_from := "B10"; m_timestamp := 5; m_type := "FOUND_RESULT"; m_payload := "" |}).
  - apply (bool_decide_unpack _). vm_compute. exact I.
  - intros k Hk. change (k ∈ ["B10"; "B2"; "B1"]%string) in Hk.
    repeat (apply elem_of_cons in Hk as [->|Hk]);
      [eexists; vm_compute; reflexivity .. | by apply elem_of_nil in Hk].
  - vm_compute. reflexivity.
  - apply Forall_forall. apply (bool_decide_unpack _). vm_compute. exact I.
Defined.

(** The matrix of the demo log: at relative time 0 the second message of
    B2 has replaced the first. *)
Example demo_matrix :
  align (sort_messages demo_messages) demo_logs =
    Ok (["B1"; "B2"; "B10"]%string,
        [(0, [None;
              Some {| m_from := "B2"; m_timestamp := 5;
                      m_type := "ERROR_CONDITION_UNREACHABLE"; m_payload := "g" |};
              Some {| m_from := "B10"; m_timestamp := 5;
                      m_type := "FOUND_RESULT"; m_payload := "" |}]);
         (2, [None; None;
              Some {| m_from := "B10"; m_timestamp := 7;
                      m_type := "BLOCK_POSTCONDITION"; m_payload := "a" |}]);
         (4, [None;
              Some {| m_from := "B2"; m_timestamp := 9;
                      m_type := "ERROR_CONDITION"; m_payload := "e" |};
              None])]).
Proof. vm_compute. reflexivity. Qed.

(** ** Topology graph *)

Lemma join_nonempty (sep : string) (l : list string) :
  Forall (λ x, x ≠ ""%string) l → join sep l = ""%string → l = [].
Proof.
  unfold join. destruct l as [|x l]; [done|].
  intros Hall%Forall_cons_1. destruct Hall as [Hx _].
  destruct x as [|a x]; [done|]. by destruct l.
Qed.

(** The label is the bare identifier exactly when no code line is
    non-empty. *)
Lemma node_label_cases (key : string) (infos : BlockLog) :
  node_label key infos =
    if decide (filter (λ c, c ≠ ""%string) (code infos) = [])
    then key
    else key +:+ ":" +:+ newline +:+ join newline (filter (λ c, c ≠ ""%string) (code infos)).
Proof.
  unfold node_label.
  destruct (decide (filter _ (code infos) = [])) as [->|Hne]; [done|].
  rewrite decide_False; [done|].
  intros Hj. apply Hne. eapply join_nonempty; [|exact Hj].
  apply Forall_forall. intros x Hx. by apply list_elem_of_filter in Hx as [? _].
Qed.

Lemma add_node_fresh (n : string) (attrs : dict string string) (g : DiGraph) :
  n ∉ dict_keys (g_nodes g) →
  add_node n attrs g =
    {| g_nodes := g_nodes g ++ [(n, dict_update [] attrs)]; g_edges := g_edges g |}.
Proof.
  intros Hn. unfold add_node.
  rewrite (proj2 (dict_get_None n (g_nodes g)) Hn). cbn.
  by rewrite dict_set_new.
Qed.

(** Lines 129-132 on a dictionary: one node per worker, in order. *)
Lemma add_nodes_spec (l : dict string BlockLog) (g : DiGraph) :
  NoDup (dict_keys l) →
  (∀ k, k ∈ dict_keys l → k ∉ dict_keys (g_nodes g)) →
  foldl (λ g entry, add_node entry.1
                      [("shape", "box"); ("label", node_label entry.1 entry.2)]%string g) g l
  = {| g_nodes := g_nodes g ++ ((λ entry, (entry.1, node_attrs entry)) <$> l);
       g_edges := g_edges g |}.
Proof.
  unfold dict_keys. revert g. induction l as [|entry l IH]; intros g Hnd Hfresh; cbn.
  - rewrite app_nil_r. by destruct g.
  - apply NoDup_cons in Hnd as [Hhd Hnd].
    rewrite add_node_fresh by (apply Hfresh; left).
    rewrite IH; cbn; [by rewrite <- app_assoc | done |].
    intros k Hk. unfold dict_keys. rewrite fmap_app, elem_of_app. cbn.
    rewrite list_elem_of_singleton. intros [Hin | ->]; [|done].
    eapply Hfresh; [right; exact Hk | exact Hin].
Qed.

Lemma grows_refl g : grows g g.
Proof. by split. Qed.

Lemma grows_trans g1 g2 g3 : grows g1 g2 → grows g2 g3 → grows g1 g3.
Proof. intros [? ? ?] [? ? ?]. split; auto. Qed.

Lemma add_missing_node_grows (n : string) (g : DiGraph) :
  grows g (if dict_mem n (g_nodes g) then g else add_node n [] g).
Proof.
  unfold dict_mem. destruct (dict_get n (g_nodes g)) as [a|] eqn:Hn; [apply grows_refl|].
  split; cbn.
  - intros k a Hk. rewrite dict_get_set_ne; [done | congruence].
  - apply dict_keys_set_NoDup.
  - done.
Qed.

Lemma add_missing_node_edges (n : string) (g : DiGraph) :
  g_edges (if dict_mem n (g_nodes g) then g else add_node n [] g) = g_edges g.
Proof. by destruct (dict_mem n (g_nodes g)). Qed.

Lemma add_missing_node_keys (n k : string) (g : DiGraph) :
  k ∈ dict_keys (g_nodes (if dict_mem n (g_nodes g) then g else add_node n [] g))
  ↔ k = n ∨ k ∈ dict_keys (g_nodes g).
Proof.
  unfold dict_mem. destruct (dict_get n (g_nodes g)) as [a|] eqn:Hn.
  - split; [tauto|]. intros [->|?]; [|done]. apply dict_get_is_Some. eauto.
  - cbn. apply dict_keys_set_elem.
Qed.

Lemma add_edge_grows (u v : string) (g : DiGraph) : grows g (add_edge u v g).
Proof.
  unfold add_edge.
  set (g1 := if dict_mem u (g_nodes g) then g else add_node u [] g).
  set (g2 := if dict_mem v (g_nodes g1) then g1 else add_node v [] g1).
  assert (H12 : grows g g2).
  { eapply grows_trans; apply add_missing_node_grows. }
  destruct H12 as [Ha Hn He]. split; cbn; [done | done |].
  intros Hnd. destruct (decide _) as [|Hnew]; [auto|].
  apply NoDup_app. split; [auto|]. split; [|apply NoDup_singleton].
  intros e Hin ->%list_elem_of_singleton. done.
Qed.

Lemma add_edge_edges (u v : string) (g : DiGraph) (e : string * string) :
  e ∈ g_edges (add_edge u v g) ↔ e ∈ g_edges g ∨ e = (u, v).
Proof.
  unfold add_edge. cbn. rewrite !add_missing_node_edges.
  destruct (decide _) as [Hold|Hnew].
  - split; [tauto|]. intros [?| ->]; done.
  - by rewrite elem_of_app, list_elem_of_singleton.
Qed.

Lemma add_edge_keys (u v k : string) (g : DiGraph) :
  k ∈ dict_keys (g_nodes (add_edge u v g)) ↔ k ∈ dict_keys (g_nodes g) ∨ k = u ∨ k = v.
Proof.
  unfold add_edge.
  set (g1 := if dict_mem u (g_nodes g) then g else add_node u [] g).
  set (g2 := if dict_mem v (g_nodes g1) then g1 else add_node v [] g1).
  cbn [g_nodes]. subst g2. rewrite add_missing_node_keys.
  subst g1. rewrite add_missing_node_keys. tauto.
Qed.

(** Line 135-136 for one worker. *)
Lemma add_edges_spec (key : string) (succs : list string) (g : DiGraph) :
  let g' := foldl (λ g successor, add_edge key successor g) g succs in
  grows g g'
  ∧ (∀ e, e ∈ g_edges g' ↔ e ∈ g_edges g ∨ ∃ s, s ∈ succs ∧ e = (key, s))
  ∧ (∀ k, k ∈ dict_keys (g_nodes g') ↔
          k ∈ dict_keys (g_nodes g) ∨ (succs ≠ [] ∧ k = key) ∨ k ∈ succs).
Proof.
  revert g. induction succs as [|s succs IH]; intros g; cbn.
  - split; [apply grows_refl|]. split.
    + intros e. split; [tauto|]. intros [?|(s & Hs & _)]; [done | by apply elem_of_nil in Hs].
    + intros k. split; [tauto|].
      intros [?|[[? _]|Hs]]; [done | done | by apply elem_of_nil in Hs].
  - destruct (IH (add_edge key s g)) as (Hg & He & Hk). split; [|split].
    + eapply grows_trans; [apply add_edge_grows | exact Hg].
    + intros e. rewrite He, add_edge_edges. split.
      * intros [[?| ->]|(s' & Hs' & ->)]; [by left | right | right].
        -- exists s. split; [left | done].
        -- exists s'. split; [by right | done].
      * intros [?|(s' & Hs' & ->)]; [by left; left|].
        apply elem_of_cons in Hs' as [->|Hs']; [left; by right|].
        right. by exists s'.
    + intros k. rewrite Hk, add_edge_keys. split.
      * intros [[?|[->| ->]]|[[_ ->]|Hs]].
        -- by left.
        -- right. by left.
        -- right. right. left.
        -- right. by left.
        -- right. right. by right.
      * intros [?|[[_ ->]|Hs]]; [by left; left | left; right; by left |].
        apply elem_of_cons in Hs as [->|Hs]; [left; right; by right | by right; right].
Qed.

(** Lines 133-136 for all workers. *)
Lemma add_all_edges_spec (l : dict string BlockLog) (g : DiGraph) :
  let g' := foldl (λ g entry,
                     match successors entry.2 with
                     | Some succs => foldl (λ g successor, add_edge entry.1 successor g) g succs
                     | None => g
                     end) g l in
  grows g g'
  ∧ (∀ e, e ∈ g_edges g' ↔
          e ∈ g_edges g
          ∨ ∃ entry succs s, entry ∈ l ∧ successors entry.2 = Some succs
                             ∧ s ∈ succs ∧ e = (entry.1, s))
  ∧ (∀ k, k ∈ dict_keys (g_nodes g') →
          k ∈ dict_keys (g_nodes g) ∨ k ∈ dict_keys l
          ∨ ∃ u, (u, k) ∈ g_edges g').
Proof.
  revert g. induction l as [|entry l IH]; intros g; cbn.
  - split; [apply grows_refl|]. split.
    + intros e. split; [tauto|].
      intros [?|(entry & ? & ? & Hin & _)]; [done | by apply elem_of_nil in Hin].
    + intros k Hk. by left.
  - set (g1 := match successors entry.2 with
               | Some succs => foldl (λ g successor, add_edge entry.1 successor g) g succs
               | None => g
               end).
    assert (H1 : grows g g1
      ∧ (∀ e, e ∈ g_edges g1 ↔
              e ∈ g_edges g ∨ ∃ succs s, successors entry.2 = Some succs
                                         ∧ s ∈ succs ∧ e = (entry.1, s))
      ∧ (∀ k, k ∈ dict_keys (g_nodes g1) →
              k ∈ dict_keys (g_nodes g) ∨ k = entry.1 ∨ ∃ u, (u, k) ∈ g_edges g1)).
    { subst g1. destruct (successors entry.2) as [succs|].
      - destruct (add_edges_spec entry.1 succs g) as (Hg & He & Hk).
        split; [done|]. split.
        + intros e. rewrite He. split.
          * intros [?|(s & Hs & ->)]; [by left | right; eauto].
          * intros [?|(succs' & s & [= <-] & Hs & ->)]; [by left | right; eauto].
        + intros k [?|[[_ ->]|Hs]]%Hk; [tauto | tauto |].
          right. right. exists entry.1. apply He. right. eauto.
      - split; [apply grows_refl|]. split.
        + intros e. split; [tauto|]. intros [?|(? & ? & [=] & _)]. done.
        + intros k Hk. by left. }
    destruct H1 as (Hg1 & He1 & Hk1).
    destruct (IH g1) as (Hg & He & Hk). split; [|split].
    + eapply grows_trans; [exact Hg1 | exact Hg].
    + intros e. rewrite He, He1. split.
      * intros [[?|(succs & s & Hs & Hin & ->)]|(entry' & succs & s & Hin & Hs & Hs' & ->)].
        -- by left.
        -- right. exists entry, succs, s. split; [left | done].
        -- right. exists entry', succs, s. split; [by right | done].
      * intros [?|(entry' & succs & s & Hin & Hs & Hs' & ->)]; [by left; left|].
        apply elem_of_cons in Hin as [->|Hin].
        -- left. right. eauto.
        -- right. exists entry', succs, s. done.
    + intros k Hkin. apply Hk in Hkin as [Hkin|[Hkin|Hkin]].
      * apply Hk1 in Hkin as [?|[->|[u Hu]]]; [tauto | right; left; left |].
        right. right. exists u. apply He. by left.
      * right. left. by right.
      * by right; right.
Qed.

(** C8: for every block-log mapping the graph has exactly one node per
    worker, carrying the label built from the identifier and the joined
    non-empty code lines (the bare identifier when there is none), and
    exactly one edge per declared (worker, successor) pair; a worker
    without a [successors] field has no outgoing edge, and one worker
    without successors gives one node and no edge.  (The only other nodes
    are successors that are not workers themselves.) *)
Theorem build_graph_nodes_and_edges (block_logs : dict string BlockLog) :
  NoDup (dict_keys block_logs) →
  let g := build_graph block_logs in
  NoDup (dict_keys (g_nodes g))
  ∧ (∀ key infos,
       dict_get key block_logs = Some infos →
       dict_get key (g_nodes g)
         = Some [("shape", "box"); ("label", node_label key infos)]%string
       ∧ node_label key infos =
           if decide (filter (λ c, c ≠ ""%string) (code infos) = [])
           then key
           else key +:+ ":" +:+ newline
                +:+ join newline (filter (λ c, c ≠ ""%string) (code infos)))
  ∧ (∀ k, k ∈ dict_keys (g_nodes g) →
          k ∈ dict_keys block_logs ∨ ∃ u, (u, k) ∈ g_edges g)
  ∧ NoDup (g_edges g)
  ∧ (∀ u v,
       (u, v) ∈ g_edges g ↔
       ∃ infos succs, dict_get u block_logs = Some infos
                      ∧ successors infos = Some succs ∧ v ∈ succs)
  ∧ (∀ u infos, dict_get u block_logs = Some infos → successors infos = None →
                ∀ v, (u, v) ∉ g_edges g)
  ∧ (∀ key infos,
       block_logs = [(key, infos)] →
       successors infos = None ∨ successors infos = Some [] →
       g = {| g_nodes := [(key, [("shape", "box"); ("label", node_label key infos)]%string)];
              g_edges := [] |}).
Proof.
  intros Hnd g.
  set (nodes := (λ entry : string * BlockLog, (entry.1, node_attrs entry)) <$> block_logs).
  assert (Hg : g = foldl (λ g entry,
                     match successors entry.2 with
                     | Some succs => foldl (λ g successor, add_edge entry.1 successor g) g succs
                     | None => g
                     end) {| g_nodes := nodes; g_edges := [] |} block_logs).
  { subst g. unfold build_graph. rewrite add_nodes_spec; [done | done |].
    intros k _ Hk. by apply elem_of_nil in Hk. }
  assert (Hkeys : dict_keys nodes = dict_keys block_logs).
  { subst nodes. unfold dict_keys. rewrite <- list_fmap_compose. done. }
  destruct (add_all_edges_spec block_logs {| g_nodes := nodes; g_edges := [] |})
    as ([Hattrs Hnodes Hedges] & He & Hk).
  rewrite <- Hg in *. cbn [g_nodes g_edges] in *.
  assert (Hedge : ∀ u v,
    (u, v) ∈ g_edges g ↔
    ∃ infos succs, dict_get u block_logs = Some infos
                   ∧ successors infos = Some succs ∧ v ∈ succs).
  { intros u v. rewrite He. split.
    - intros [Hin|([k infos] & succs & s & Hin & Hs & Hs' & [= -> ->])];
        [by apply elem_of_nil in Hin|].
      exists infos, succs. split; [by apply dict_get_NoDup | done].
    - intros (infos & succs & Hget & Hs & Hv). right.
      exists (u, infos), succs, v. split; [by apply dict_get_elem_of | done]. }
  split. { apply Hnodes. by rewrite Hkeys. }
  split.
  { intros key infos Hget. split; [|apply node_label_cases].
    apply Hattrs, dict_get_NoDup; [by rewrite Hkeys|].
    subst nodes. apply list_elem_of_fmap. exists (key, infos).
    split; [done | by apply dict_get_elem_of]. }
  split. { intros k Hkin. apply Hk in Hkin as [Hkin|[?|?]]; [|by left|by right].
           left. by rewrite <- Hkeys. }
  split. { apply Hedges. constructor. }
  split; [exact Hedge|].
  split.
  { intros u infos Hget Hnone v Hin.
    apply Hedge in Hin as (infos' & succs & Hget' & Hs & _). congruence. }
  intros key infos -> Hs. rewrite Hg. subst nodes.
  destruct Hs as [Hs|Hs]; cbn [foldl snd fst fmap list_fmap]; rewrite Hs; reflexivity.
Qed.

Lemma build_graph_nodes_and_edges_witness :
  NoDup (dict_keys (g_nodes (build_graph demo_logs)))
  ∧ NoDup (g_edges (build_graph demo_logs))
  ∧ (∀ u v,
       (u, v) ∈ g_edges (build_graph demo_logs) ↔
       ∃ infos succs, dict_get u demo_logs = Some infos
                      ∧ successors infos = Some succs ∧ v ∈ succs).
Proof.
  assert (Hnd : NoDup (dict_keys demo_logs))
    by (apply (bool_decide_unpack _); vm_compute; exact I).
  destruct (build_graph_nodes_and_edges demo_logs Hnd) as (H1 & _ & _ & H4 & H5 & _).
  exact (conj H1 (conj H4 H5)).
Defined.

Example demo_graph :
  build_graph demo_logs =
    {| g_nodes := [("B10", [("shape", "box"); ("label", "B10:" +:+ newline +:+ "x = 1")]);
                   ("B2", [("shape", "box"); ("label", "B2")]);
                   ("B1", [("shape", "box"); ("label", "B1")])]%string;
       g_edges := [("B10", "B2")]%string |}.
Proof. vm_compute. reflexivity. Qed.

(** A successor that is not a worker becomes a node without label, and a
    successor listed twice gives one edge. *)
Example dangling_successor_graph :
  build_graph [("B0"%string, {| predecessors := None;
                                successors := Some ["B7"; "B7"]%string;
                                code := []; messages := None |})] =
    {| g_nodes := [("B0", [("shape", "box"); ("label", "B0")]); ("B7", [])]%string;
       g_edges := [("B0", "B7")]%string |}.
Proof. vm_compute. reflexivity. Qed.


(** ** The table renderer returns *)

(** On a well-formed log (a dictionary whose identifiers have a numeric
    suffix, a non-empty message list, every [from] a worker) a table is
    produced. *)
Lemma html_dict_to_html_table_total all_messages block_logs :
  NoDup (dict_keys block_logs) →
  (∀ k, k ∈ dict_keys block_logs → ∃ n, suffix_key k = Ok n) →
  all_messages ≠ [] →
  (∀ m, m ∈ all_messages → m_from m ∈ dict_keys block_logs) →
  ∃ table, html_dict_to_html_table all_messages block_logs = Ok table.
Proof.
  intros Hnd Hparse Hne Hfrom.
  destruct all_messages as [|first rest]; [done|].
  destruct (sort_keys_total _ Hparse) as [sorted_keys Hsk].
  destruct (sort_keys_Ok _ _ Hsk) as [Hp _].
  assert (Hlen : length sorted_keys = length block_logs).
  { rewrite Hp. unfold dict_keys. by rewrite length_fmap. }
  destruct (fold_place_total (m_timestamp first) (length block_logs)
              (make_index_dict sorted_keys) (first :: rest) [] (rows_width_nil _))
    as [t Hfold].
  { intros m Hm. destruct (make_index_dict_is_Some sorted_keys (m_from m)) as [_ [i Hi]].
    { rewrite Hp. by apply Hfrom. }
    exists i. split; [done|]. rewrite <- Hlen.
    eapply lookup_lt_Some, make_index_dict_lookup, Hi. }
  assert (Hkeys : NoDup (dict_keys t)).
  { eapply fold_place_keys_NoDup; [apply rows_width_nil | apply NoDup_nil_2 | exact Hfold]. }
  unfold html_dict_to_html_table. rewrite align_cons, Hsk. cbn -[fold_result].
  rewrite Hfold. cbn -[render_table]. unfold render_table.
  destruct (map_result_total (render_row block_logs) t) as [rows ->]; [|cbn; eauto].
  intros [r row] Hentry. unfold render_row. cbn [fst snd].
  destruct (map_result_total (render_cell block_logs) row) as [cells ->]; [|cbn; eauto].
  intros [m|] Hcell; [|cbn; eauto].
  apply list_elem_of_lookup_1 in Hcell as [c Hc].
  assert (Hs : slot t r c = Some m).
  { unfold slot. rewrite (dict_get_NoDup _ _ _ Hkeys Hentry), Hc. done. }
  rewrite (fold_place_slot _ _ _ _ _ r c Hfold) in Hs.
  apply last_Some_elem_of, list_elem_of_filter in Hs as [_ Hm].
  destruct (proj2 (dict_get_is_Some (m_from m) block_logs) (Hfrom m Hm)) as [infos Hinfos].
  unfold render_cell. rewrite (html_for_message_populated _ _ _ Hinfos). cbn. eauto.
Qed.

(** * Further properties of the cell renderer *)

(** The cell of a populated message exists exactly when its worker is in
    the block log (line 45); otherwise the lookup raises [KeyError] with
    the worker identifier. *)
Theorem html_for_message_worker_lookup (message : Message) (block_log : dict string BlockLog) :
  (m_from message ∈ dict_keys block_log ↔
     ∃ d, html_for_message (Some message) block_log = Ok (PyStr d))
  ∧ (m_from message ∉ dict_keys block_log ↔
     html_for_message (Some message) block_log = Raise (KeyError (m_from message))).
Proof.
  destruct (dict_get (m_from message) block_log) as [infos|] eqn:Hget.
  - pose proof (html_for_message_populated _ _ _ Hget) as Hok.
    assert (Hin : m_from message ∈ dict_keys block_log)
      by (apply dict_get_is_Some; eauto).
    split; split; try done.
    + intros _. eauto.
    + rewrite Hok. discriminate.
  - assert (Hnin : m_from message ∉ dict_keys block_log) by by apply dict_get_None.
    assert (Hr : html_for_message (Some message) block_log
                 = Raise (KeyError (m_from message))).
    { unfold html_for_message, getitem. by rewrite Hget. }
    split; split; try done.
    intros [d Hd]. rewrite Hr in Hd. discriminate.
Qed.

(** Line 49 and 83: the text area of a populated cell is never empty; it
    shows the payload, or the placeholder when the payload is empty. *)
Theorem payload_never_blank (message : Message) (block_log : dict string BlockLog) (d : doc) :
  html_for_message (Some message) block_log = Ok (PyStr d) →
  ∃ title summary text,
    d = [Elem "div" [("title"%string, title)] (summary ++ [Elem "textarea" [] [Text text]])]
    ∧ text ≠ ""%string
    ∧ (m_payload message ≠ ""%string → text = m_payload message)
    ∧ (m_payload message = ""%string → text = "no contents available"%string).
Proof.
  intros H.
  destruct (dict_get (m_from message) block_log) as [infos|] eqn:Hget.
  - rewrite (html_for_message_populated _ _ _ Hget) in H. injection H as <-.
    eexists _, [_; _], _. split; [reflexivity|].
    destruct (decide (m_payload message = ""%string)) as [He|Hne]; done.
  - unfold html_for_message, getitem in H. by rewrite Hget in H.
Qed.

Lemma payload_never_blank_witness :
  ∃ title summary text,
    (match html_for_message (Some (scenario_message "")) (scenario_logs [] [] "") with
     | Ok (PyStr d) => d
     | _ => []
     end)
    = [Elem "div" [("title"%string, title)] (summary ++ [Elem "textarea" [] [Text text]])]
    ∧ text ≠ ""%string
    ∧ (m_payload (scenario_message "") ≠ ""%string → text = m_payload (scenario_message ""))
    ∧ (m_payload (scenario_message "") = ""%string → text = "no contents available"%string).
Proof.
  apply (payload_never_blank (scenario_message "") (scenario_logs [] [] "")).
  vm_compute. reflexivity.
Defined.

(** Lines 52-67 and 76-78: the sender list is empty, and the summary
    falls back to "self", only for a BLOCK_POSTCONDITION message of a
    worker whose [predecessors] is the empty list, or an ERROR_CONDITION
    or ERROR_CONDITION_UNREACHABLE message of a worker whose [successors]
    is the empty list. *)
Theorem senders_empty_iff (message : Message) (infos : BlockLog) :
  senders (classify message infos) = [] ↔
    (m_type message = "BLOCK_POSTCONDITION"%string ∧ predecessors infos = Some [])
    ∨ ((m_type message = "ERROR_CONDITION"%string
        ∨ m_type message = "ERROR_CONDITION_UNREACHABLE"%string)
       ∧ successors infos = Some []).
Proof.
  unfold classify, predecessors_of, successors_of.
  destruct (decide (m_type message = "BLOCK_POSTCONDITION"%string)) as [Hbp|Hbp].
  { rewrite Hbp. cbn [senders].
    destruct (predecessors infos) as [[|p ps]|]; split; try done.
    - intros _. by left.
    - intros [[_ [=]]|[[[=]|[=]] _]].
    - intros [[_ [=]]|[[[=]|[=]] _]]. }
  destruct (decide (m_type message = "ERROR_CONDITION"%string)) as [Hec|Hec].
  { rewrite Hec. cbn [senders].
    destruct (successors infos) as [[|p ps]|]; split; try done.
    - intros _. right. split; [by left | done].
    - intros [[[=] _]|[_ [=]]].
    - intros [[[=] _]|[_ [=]]]. }
  destruct (decide (m_type message = "ERROR_CONDITION_UNREACHABLE"%string)) as [Heu|Heu].
  { rewrite Heu. cbn [senders].
    destruct (successors infos) as [[|p ps]|]; split; try done.
    - intros _. right. split; [by right | done].
    - intros [[[=] _]|[_ [=]]].
    - intros [[[=] _]|[_ [=]]]. }
  destruct (decide (m_type message = "FOUND_RESULT"%string)); cbn [senders];
    (split; [done | intros [[? _]|[[?|?] _]]; done]).
Qed.

(** Lines 51-67, the remaining rules: ERROR_CONDITION swaps the roles of
    the topology fields, ERROR_CONDITION_UNREACHABLE is addressed to
    "all", FOUND_RESULT names the sending worker itself, and any other
    type keeps the defaults "all" / "all" / "-". *)
Theorem classify_other_types (message : Message) (infos : BlockLog) :
  (m_type message = "ERROR_CONDITION"%string →
     classify message infos =
       {| senders := default ["none"%string] (successors infos);
          receivers := default ["none"%string] (predecessors infos);
          arrow := "&uarr;" |})
  ∧ (m_type message = "ERROR_CONDITION_UNREACHABLE"%string →
     classify message infos =
       {| senders := default ["none"%string] (successors infos);
          receivers := ["all"%string]; arrow := "&uarr;" |})
  ∧ (m_type message = "FOUND_RESULT"%string →
     classify message infos =
       {| senders := [m_from message]; receivers := ["all"%string]; arrow := "-" |})
  ∧ (m_type message ∉ ["BLOCK_POSTCONDITION"; "ERROR_CONDITION";
                        "ERROR_CONDITION_UNREACHABLE"; "FOUND_RESULT"]%string →
     classify message infos =
       {| senders := ["all"%string]; receivers := ["all"%string]; arrow := "-" |}).
Proof.
  unfold classify, predecessors_of, successors_of.
  repeat split.
  - intros ->. by destruct (predecessors infos), (successors infos).
  - intros ->. by destruct (successors infos).
  - by intros ->.
  - intros Hnot. rewrite !not_elem_of_cons in Hnot.
    destruct Hnot as (? & ? & ? & ? & _).
    by rewrite !decide_False by done.
Qed.

(** * Further properties of the table renderer: errors *)

Lemma py_int_Raise (s : string) (e : exn) : py_int s = Raise e → e = ValueError s.
Proof.
  unfold py_int. destruct (match strip (list_ascii_of_string s) with
                           | [] => None
                           | a :: l' => _
                           end); [done|]. by intros [= <-].
Qed.

Lemma map_result_first_raise {A B : Type} (f : A → result B) (l1 l2 : list A) (x : A) e :
  (∀ y, y ∈ l1 → ∃ b, f y = Ok b) → f x = Raise e →
  map_result f (l1 ++ x :: l2) = Raise e.
Proof.
  intros Hl1 Hx. induction l1 as [|y l1 IH]; cbn.
  - by rewrite Hx.
  - destruct (Hl1 y) as [b ->]; [left|]. cbn.
    rewrite IH; [done|]. intros z Hz. apply Hl1. by right.
Qed.

Lemma fold_result_first_raise {A S : Type} (f : S → A → result S)
    (l1 l2 : list A) (x : A) (acc acc1 : S) e :
  fold_result f l1 acc = Ok acc1 → f acc1 x = Raise e →
  fold_result f (l1 ++ x :: l2) acc = Raise e.
Proof.
  intros H1 Hx. rewrite fold_result_app, H1. cbn. by rewrite Hx.
Qed.

Lemma sort_keys_first_bad (l1 l2 : list string) (k : string) :
  (∀ k', k' ∈ l1 → ∃ n, suffix_key k' = Ok n) →
  (∀ n, suffix_key k ≠ Ok n) →
  sort_keys (l1 ++ k :: l2) = Raise (ValueError (drop_first k)).
Proof.
  intros Hl1 Hk. unfold sort_keys.
  rewrite (map_result_first_raise _ l1 l2 k (ValueError (drop_first k))); [done| |].
  - intros y Hy. destruct (Hl1 y Hy) as [n ->]. cbn. eauto.
  - destruct (suffix_key k) as [n|e] eqn:Hs; [by destruct (Hk n)|].
    apply py_int_Raise in Hs as ->. done.
Qed.

(** Every message the loop of lines 95-97 got through has a column. *)
Lemma fold_place_Ok_known first_timestamp width index_dict
    (l : list Message) (t t' : Matrix) :
  fold_result (place first_timestamp width index_dict) l t = Ok t' →
  ∀ m, m ∈ l → is_Some (index_dict !! m_from m).
Proof.
  intros Hfold m Hm.
  destruct (index_dict !! m_from m) as [i|] eqn:Hi; [eauto|].
  destruct (fold_result_raises (place first_timestamp width index_dict) l m Hm) with (acc := t)
    as [e He].
  - intros acc. eexists. by apply place_unknown_worker.
  - rewrite He in Hfold. discriminate.
Qed.

(** Line 91 runs before any message is placed: with a non-empty message
    list, the first worker identifier (in the order of the block log)
    whose suffix [x[1:]] is not an integer makes the table renderer raise
    [ValueError] for that suffix, whatever the messages are. *)
Theorem bad_identifier_raises_ValueError all_messages block_logs (l1 l2 : list string) k :
  all_messages ≠ [] →
  dict_keys block_logs = l1 ++ k :: l2 →
  (∀ k', k' ∈ l1 → ∃ n, suffix_key k' = Ok n) →
  (∀ n, suffix_key k ≠ Ok n) →
  html_dict_to_html_table all_messages block_logs = Raise (ValueError (drop_first k)).
Proof.
  intros Hne Hkeys Hl1 Hk.
  destruct all_messages as [|first rest]; [done|].
  unfold html_dict_to_html_table. rewrite align_cons, Hkeys.
  by rewrite (sort_keys_first_bad _ _ _ Hl1 Hk).
Qed.

Lemma bad_identifier_raises_ValueError_witness :
  html_dict_to_html_table
    [{| m_from := "B9"; m_timestamp := 1; m_type := "FOUND_RESULT"; m_payload := "" |}]
    [("B0"%string, Build_BlockLog None None [] None);
     ("main"%string, Build_BlockLog None None [] None);
     ("Bx"%string, Build_BlockLog None None [] None)]
  = Raise (ValueError (drop_first "main")).
Proof.
  apply (bad_identifier_raises_ValueError _ _ ["B0"%string] ["Bx"%string] "main"%string).
  - discriminate.
  - reflexivity.
  - intros k' ->%list_elem_of_singleton. eexists. vm_compute. reflexivity.
  - intros n. vm_compute. discriminate.
Defined.

(** Line 97: when every identifier has an integer suffix, the first
    message (in list order) whose worker is not in the block log makes the
    table renderer raise [KeyError] for that worker. *)
Theorem first_unknown_worker_raises_KeyError block_logs (l1 l2 : list Message) m :
  (∀ k, k ∈ dict_keys block_logs → ∃ n, suffix_key k = Ok n) →
  (∀ m', m' ∈ l1 → m_from m' ∈ dict_keys block_logs) →
  m_from m ∉ dict_keys block_logs →
  html_dict_to_html_table (l1 ++ m :: l2) block_logs = Raise (KeyError (m_from m)).
Proof.
  intros Hparse Hl1 Hm.
  destruct (sort_keys_total _ Hparse) as [sorted_keys Hsk].
  destruct (sort_keys_Ok _ _ Hsk) as [Hp _].
  assert (Hlen : length sorted_keys = length block_logs).
  { rewrite Hp. unfold dict_keys. by rewrite length_fmap. }
  assert (Hfirst : ∃ first rest, l1 ++ m :: l2 = first :: rest).
  { destruct l1; cbn; eauto. }
  destruct Hfirst as (first & rest & Heq).
  destruct (fold_place_total (m_timestamp first) (length block_logs)
              (make_index_dict sorted_keys) l1 [] (rows_width_nil _)) as [t1 Hfold].
  { intros m' Hm'.
    destruct (make_index_dict_is_Some sorted_keys (m_from m')) as [_ [i Hi]].
    { rewrite Hp. by apply Hl1. }
    exists i. split; [done|]. rewrite <- Hlen.
    eapply lookup_lt_Some, make_index_dict_lookup, Hi. }
  unfold html_dict_to_html_table. rewrite Heq, align_cons, Hsk.
  change (Ok sorted_keys ≫= ?k) with (k sorted_keys). cbv beta. rewrite <- Heq.
  rewrite (fold_result_first_raise (S := Matrix) _ l1 l2 m [] t1
             (KeyError (m_from m)) Hfold); [done|].
  apply place_unknown_worker. apply eq_None_not_Some.
  rewrite make_index_dict_is_Some, Hp. done.
Qed.

Lemma first_unknown_worker_raises_KeyError_witness :
  html_dict_to_html_table
    ([scenario_message "p"]
     ++ {| m_from := "B7"; m_timestamp := 4; m_type := "FOUND_RESULT"; m_payload := "" |}
     :: [{| m_from := "B8"; m_timestamp := 2; m_type := "FOUND_RESULT"; m_payload := "" |}])
    (scenario_logs [] [] "p")
  = Raise (KeyError "B7").
Proof.
  apply (first_unknown_worker_raises_KeyError (scenario_logs [] [] "p")
           [scenario_message "p"]
           [{| m_from := "B8"; m_timestamp := 2; m_type := "FOUND_RESULT"; m_payload := "" |}]
           {| m_from := "B7"; m_timestamp := 4; m_type := "FOUND_RESULT"; m_payload := "" |}).
  - intros k Hk. change (k ∈ ["B0"; "B1"]%string) in Hk.
    repeat (apply elem_of_cons in Hk as [->|Hk]);
      [eexists; vm_compute; reflexivity .. | by apply elem_of_nil in Hk].
  - intros m' ->%list_elem_of_singleton. apply (bool_decide_unpack _). vm_compute. exact I.
  - apply (bool_decide_unpack _). vm_compute. exact I.
Defined.

Lemma table_Ok_well_formed all_messages block_logs table :
  html_dict_to_html_table all_messages block_logs = Ok table →
  all_messages ≠ []
  ∧ (∀ k, k ∈ dict_keys block_logs → ∃ n, suffix_key k = Ok n)
  ∧ (∀ m, m ∈ all_messages → m_from m ∈ dict_keys block_logs).
Proof.
  intros H.
  apply html_dict_to_html_table_Ok_inv in H as (sorted_keys & t & Hal & _).
  apply align_Ok_inv in Hal as (first & rest & -> & Hsk & Hfold).
  destruct (sort_keys_Ok _ _ Hsk) as (Hp & suffixes & Hsuf & _).
  split; [done|]. split.
  - intros k Hk. rewrite <- Hp in Hk.
    apply list_elem_of_lookup_1 in Hk as [i Hi].
    destruct (Forall2_lookup_l _ _ _ _ _ Hsuf Hi) as (n & _ & Hn). eauto.
  - intros m Hm. rewrite <- Hp. apply make_index_dict_is_Some.
    by eapply fold_place_Ok_known.
Qed.

(** The table renderer returns a table exactly for a well-formed input:
    a non-empty message list (line 89), identifiers with an integer
    suffix (line 91) and messages of known workers only (line 97). *)
Theorem table_rendered_iff_well_formed all_messages block_logs :
  NoDup (dict_keys block_logs) →
  (∃ table, html_dict_to_html_table all_messages block_logs = Ok table)
  ↔ all_messages ≠ []
    ∧ (∀ k, k ∈ dict_keys block_logs → ∃ n, suffix_key k = Ok n)
    ∧ (∀ m, m ∈ all_messages → m_from m ∈ dict_keys block_logs).
Proof.
  intros Hnd. split.
  - intros [table H]. by eapply table_Ok_well_formed.
  - intros (Hne & Hparse & Hfrom). by apply html_dict_to_html_table_total.
Qed.

Lemma table_rendered_iff_well_formed_witness :
  (∃ table, html_dict_to_html_table (sort_messages demo_messages) demo_logs = Ok table)
  ↔ sort_messages demo_messages ≠ []
    ∧ (∀ k, k ∈ dict_keys demo_logs → ∃ n, suffix_key k = Ok n)
    ∧ (∀ m, m ∈ sort_messages demo_messages → m_from m ∈ dict_keys demo_logs).
Proof.
  apply (table_rendered_iff_well_formed (sort_messages demo_messages) demo_logs).
  apply (bool_decide_unpack _). vm_compute. exact I.
Defined.

(** * Further properties of the table renderer: rows and cells *)

Lemma fold_place_keys_elem first_timestamp width index_dict (l : list Message) :
  ∀ (t t' : Matrix),
    rows_width width t →
    fold_result (place first_timestamp width index_dict) l t = Ok t' →
    ∀ k, k ∈ dict_keys t' ↔
         k ∈ dict_keys t ∨ ∃ m, m ∈ l ∧ m_timestamp m - first_timestamp = k.
Proof.
  induction l as [|m l IH]; intros t t' Hw; cbn.
  - intros [= <-] k. split; [by left|].
    intros [?|(m & Hm & _)]; [done | by apply elem_of_nil in Hm].
  - intros H k. inv_bind H. rename a into t1.
    rewrite (IH t1 t' (place_rows_width _ _ _ _ _ _ Hw Ha) H k).
    rewrite (place_keys _ _ _ _ _ _ Hw Ha).
    split.
    + intros [Hk|(m' & Hm' & Hr)].
      * destruct (decide _); [by left|].
        apply elem_of_app in Hk as [?| ->%list_elem_of_singleton]; [by left|].
        right. exists m. split; [left | done].
      * right. exists m'. split; [by right | done].
    + intros [Hk|(m' & Hm' & Hr)].
      * left. destruct (decide _); [done|]. apply elem_of_app. by left.
      * apply elem_of_cons in Hm' as [->|Hm'].
        -- left. destruct (decide _) as [Hin|Hnin]; [by rewrite <- Hr|].
           apply elem_of_app. right. rewrite <- Hr. left.
        -- right. eauto.
Qed.

Lemma fold_place_keys_prefix first_timestamp width index_dict (l : list Message) :
  ∀ (t t' : Matrix),
    rows_width width t →
    fold_result (place first_timestamp width index_dict) l t = Ok t' →
    dict_keys t `prefix_of` dict_keys t'.
Proof.
  induction l as [|m l IH]; intros t t' Hw; cbn.
  - by intros [= <-].
  - intros H. inv_bind H. rename a into t1.
    transitivity (dict_keys t1).
    + rewrite (place_keys _ _ _ _ _ _ Hw Ha).
      destruct (decide _); [done | by apply prefix_app_r].
    + eapply IH; [|exact H]. by eapply place_rows_width.
Qed.

(** The first message opens the row of relative time 0. *)
Lemma align_first_key all_messages block_logs sorted_keys (t : Matrix) :
  align all_messages block_logs = Ok (sorted_keys, t) → head (dict_keys t) = Some 0.
Proof.
  intros H. apply align_Ok_inv in H as (first & rest & -> & _ & Hfold).
  cbn [fold_result] in Hfold. inv_bind Hfold. rename a into t1.
  pose proof (place_keys _ _ _ _ _ _ (rows_width_nil _) Ha) as Hk.
  rewrite decide_False in Hk by apply not_elem_of_nil.
  cbn in Hk. rewrite Z.sub_diag in Hk.
  assert (Hw : rows_width (length block_logs) t1).
  { eapply place_rows_width; [apply rows_width_nil | exact Ha]. }
  destruct (fold_place_keys_prefix _ _ _ rest t1 t Hw Hfold) as [k Hpre].
  by rewrite Hpre, Hk.
Qed.

Lemma str_of_int_inj (a b : Z) : str_of_int a = str_of_int b → a = b.
Proof.
  unfold str_of_int. intros H. apply DecimalZ.to_int_inj.
  assert (Hnn : ∀ n, Z.to_int n ≠ Decimal.Pos Decimal.Nil
                     ∧ Z.to_int n ≠ Decimal.Neg Decimal.Nil).
  { intros [|p|p]; cbn; split; try discriminate;
      intros [= Hp]; by apply DecimalPos.Unsigned.to_uint_nonnil in Hp. }
  apply (f_equal NilZero.int_of_string) in H.
  rewrite !NilZero.isi in H by apply Hnn. by injection H.
Qed.

(** Lines 95-97 and 112-114: the table has one data row per distinct
    relative timestamp [timestamp - first_timestamp] of the message list,
    no two rows for the same one, and the row of the first message
    (relative time 0) comes first. *)
Theorem one_row_per_relative_time all_messages block_logs table :
  html_dict_to_html_table all_messages block_logs = Ok table →
  ∃ first keys,
    head all_messages = Some first
    ∧ row_time <$> table_rows table = (λ r, Some (str_of_int r)) <$> keys
    ∧ NoDup keys
    ∧ head keys = Some 0
    ∧ ∀ k, k ∈ keys ↔ ∃ m, m ∈ all_messages ∧ m_timestamp m - m_timestamp first = k.
Proof.
  intros H. apply html_dict_to_html_table_Ok_inv in H as (sorted_keys & t & Hal & Hr).
  pose proof (align_first_key _ _ _ _ Hal) as Hhead.
  apply align_Ok_inv in Hal as (first & rest & -> & Hsk & Hfold).
  apply render_table_Ok_inv in Hr as (rows & Hrows & _ & ->).
  exists first, (dict_keys t). split; [done|].
  split; [by eapply render_rows_times|].
  split. { eapply fold_place_keys_NoDup;
             [apply rows_width_nil | apply NoDup_nil_2 | exact Hfold]. }
  split; [done|].
  intros k. rewrite (fold_place_keys_elem _ _ _ _ _ _ (rows_width_nil _) Hfold k).
  split; [|by right]. intros [Hk|?]; [by apply elem_of_nil in Hk | done].
Qed.

Lemma one_row_per_relative_time_witness :
  ∃ first keys,
    head (sort_messages demo_messages) = Some first
    ∧ row_time <$> table_rows demo_table = (λ r, Some (str_of_int r)) <$> keys
    ∧ NoDup keys
    ∧ head keys = Some 0
    ∧ ∀ k, k ∈ keys ↔
           ∃ m, m ∈ sort_messages demo_messages ∧ m_timestamp m - m_timestamp first = k.
Proof.
  apply (one_row_per_relative_time (sort_messages demo_messages) demo_logs demo_table).
  vm_compute. reflexivity.
Defined.

(** Line 114: the time cells of the rows are pairwise different texts. *)
Theorem row_times_distinct all_messages block_logs table :
  html_dict_to_html_table all_messages block_logs = Ok table →
  NoDup (row_time <$> table_rows table)
  ∧ ∀ tr, tr ∈ table_rows table → ∃ r, row_time tr = Some (str_of_int r).
Proof.
  intros H. apply html_dict_to_html_table_Ok_inv in H as (sorted_keys & t & Hal & Hr).
  apply align_Ok_inv in Hal as (first & rest & -> & Hsk & Hfold).
  apply render_table_Ok_inv in Hr as (rows & Hrows & _ & ->).
  pose proof (render_rows_times _ _ _ Hrows) as Htimes. split.
  - rewrite Htimes. apply NoDup_fmap_2.
    + intros a b [= Hab]. by apply str_of_int_inj.
    + eapply fold_place_keys_NoDup;
        [apply rows_width_nil | apply NoDup_nil_2 | exact Hfold].
  - intros tr Htr. apply list_elem_of_lookup_1 in Htr as [i Hi].
    destruct (Forall2_lookup_r _ _ _ _ _ Hrows Hi) as (entry & _ & Hrow).
    apply render_row_Ok_inv in Hrow as [-> _]. eauto.
Qed.

Lemma row_times_distinct_witness :
  NoDup (row_time <$> table_rows demo_table)
  ∧ ∀ tr, tr ∈ table_rows demo_table → ∃ r, row_time tr = Some (str_of_int r).
Proof.
  apply (row_times_distinct (sort_messages demo_messages) demo_logs demo_table).
  vm_compute. reflexivity.
Defined.

(** The table [main] writes starts at relative time 0 and shows no
    negative time: line 155 puts a message of smallest timestamp first. *)
Theorem report_times_start_at_zero (fs : Files) table :
  report_table (main fs).1 = Some table →
  ∃ keys,
    row_time <$> table_rows table = (λ r, Some (str_of_int r)) <$> keys
    ∧ head keys = Some 0
    ∧ Forall (λ r, 0 ≤ r) keys.
Proof.
  intros H. apply main_report_inv in H.
  pose proof (sort_messages_timestamps (collect_messages (block_analysis fs))) as Hts.
  apply html_dict_to_html_table_Ok_inv in H as (sorted_keys & t & Hal & Hr).
  pose proof (align_first_key _ _ _ _ Hal) as Hhead.
  apply align_Ok_inv in Hal as (first & rest & Heq & Hsk & Hfold).
  apply render_table_Ok_inv in Hr as (rows & Hrows & _ & ->).
  exists (dict_keys t). split; [by eapply render_rows_times|]. split; [done|].
  assert (Hsorted : StronglySorted Z.lt (dict_keys t)).
  { eapply fold_place_keys_ascending;
      [apply rows_width_nil | exact Hts | constructor | | exact Hfold].
    intros k m Hk. by apply elem_of_nil in Hk. }
  destruct (dict_keys t) as [|k0 ks]; [done|]. injection Hhead as ->.
  apply StronglySorted_cons in Hsorted as [Hall _].
  constructor; [lia|]. eapply Forall_impl; [exact Hall|]. cbn. lia.
Qed.

Lemma report_times_start_at_zero_witness :
  ∃ keys,
    row_time <$> table_rows demo_table = (λ r, Some (str_of_int r)) <$> keys
    ∧ head keys = Some 0
    ∧ Forall (λ r, 0 ≤ r) keys.
Proof.
  apply (report_times_start_at_zero demo_files demo_table).
  vm_compute. reflexivity.
Defined.

Lemma html_for_message_Ok_PyStr (m : Message) (block_logs : dict string BlockLog) v :
  html_for_message (Some m) block_logs = Ok v → ∃ d, v = PyStr d.
Proof.
  destruct (dict_get (m_from m) block_logs) as [infos|] eqn:Hget.
  - rewrite (html_for_message_populated _ _ _ Hget). intros [= <-]. eauto.
  - unfold html_for_message, getitem. by rewrite Hget.
Qed.

Lemma render_cell_Ok_inv (block_logs : dict string BlockLog) (msg : option Message) td :
  render_cell block_logs msg = Ok td →
  match msg with
  | None => td = Elem "td" [] []
  | Some m =>
      ∃ d, html_for_message (Some m) block_logs = Ok (PyStr d)
           ∧ td = Elem "td" [("class"%string, default "normal"%string
                                                (type_to_klass !! m_type m))] d
  end.
Proof.
  destruct msg as [m|]; cbn.
  - intros H. inv_bind H. injection H as <-.
    destruct (html_for_message_Ok_PyStr _ _ _ Ha) as [d ->]. eauto.
  - by intros [= <-].
Qed.

(** Lines 107-111 and 120: the style class by message type. *)
Lemma type_to_klass_lookup (ty : string) :
  default "normal"%string (type_to_klass !! ty) =
    if decide (ty = "BLOCK_POSTCONDITION"%string) then "precondition"%string
    else if decide (ty = "ERROR_CONDITION"%string
                    ∨ ty = "ERROR_CONDITION_UNREACHABLE"%string)
         then "postcondition"%string
         else "normal"%string.
Proof.
  change type_to_klass with
    (<["BLOCK_POSTCONDITION"%string := "precondition"%string]>
       (<["ERROR_CONDITION"%string := "postcondition"%string]>
          (<["ERROR_CONDITION_UNREACHABLE"%string := "postcondition"%string]>
             (∅ : gmap string string)))).
  destruct (decide (ty = "BLOCK_POSTCONDITION"%string)) as [->|H1].
  { by rewrite lookup_insert_eq. }
  rewrite lookup_insert_ne by done.
  destruct (decide (ty = "ERROR_CONDITION"%string)) as [->|H2].
  { rewrite lookup_insert_eq. by rewrite decide_True by by left. }
  rewrite lookup_insert_ne by done.
  destruct (decide (ty = "ERROR_CONDITION_UNREACHABLE"%string)) as [->|H3].
  { rewrite lookup_insert_eq. by rewrite decide_True by by right. }
  rewrite lookup_insert_ne by done. rewrite lookup_empty.
  by rewrite decide_False by (intros [?|?]; done).
Qed.

(** Lines 112-121: the table shows the matrix cell by cell.  Every data
    row renders one matrix row: its time cell, then for each slot either
    an empty [td] (empty slot) or a [td] holding the render of the slot's
    message, with the class "precondition" for BLOCK_POSTCONDITION,
    "postcondition" for the two error types and "normal" for any other
    type. *)
Theorem table_shows_matrix all_messages block_logs table :
  html_dict_to_html_table all_messages block_logs = Ok table →
  ∃ sorted_keys (t : Matrix),
    align all_messages block_logs = Ok (sorted_keys, t)
    ∧ Forall2
        (λ (entry : Z * Row) tr,
           row_time tr = Some (str_of_int entry.1)
           ∧ Forall2
               (λ msg td,
                  match msg with
                  | None => td = Elem "td" [] []
                  | Some m =>
                      ∃ d,
                        html_for_message (Some m) block_logs = Ok (PyStr d)
                        ∧ td = Elem "td"
                                 [("class"%string,
                                   if decide (m_type m = "BLOCK_POSTCONDITION"%string)
                                   then "precondition"%string
                                   else if decide (m_type m = "ERROR_CONDITION"%string
                                                   ∨ m_type m
                                                     = "ERROR_CONDITION_UNREACHABLE"%string)
                                        then "postcondition"%string
                                        else "normal"%string)] d
                  end)
               entry.2 (row_cells tr))
        t (table_rows table).
Proof.
  intros H. apply html_dict_to_html_table_Ok_inv in H as (sorted_keys & t & Hal & Hr).
  exists sorted_keys, t. split; [done|].
  apply render_table_Ok_inv in Hr as (rows & Hrows & _ & ->).
  eapply Forall2_impl; [exact Hrows|]. cbn.
  intros entry tr Hrow. apply render_row_Ok_inv in Hrow as [Htime Hcells].
  split; [done|].
  eapply Forall2_impl; [exact Hcells|]. cbn.
  intros msg td Hcell. apply render_cell_Ok_inv in Hcell.
  destruct msg as [m|]; [|done].
  destruct Hcell as (d & Hd & ->). exists d. split; [done|].
  by rewrite type_to_klass_lookup.
Qed.

Lemma table_shows_matrix_witness :
  ∃ sorted_keys (t : Matrix),
    align (sort_messages demo_messages) demo_logs = Ok (sorted_keys, t)
    ∧ length (table_rows demo_table) = length t.
Proof.
  destruct (table_shows_matrix (sort_messages demo_messages) demo_logs demo_table)
    as (sorted_keys & t & Hal & Hrows).
  - vm_compute. reflexivity.
  - exists sorted_keys, t. split; [exact Hal|].
    symmetry. exact (Forall2_length _ _ _ Hrows).
Defined.

(** Lines 95-97: no row of the table is empty: every data row has at
    least one populated cell. *)
Theorem every_row_has_a_message all_messages block_logs table :
  html_dict_to_html_table all_messages block_logs = Ok table →
  ∀ tr, tr ∈ table_rows table →
        ∃ td, td ∈ row_cells tr ∧ td ≠ Elem "td" [] [].
Proof.
  intros H tr Htr.
  apply html_dict_to_html_table_Ok_inv in H as (sorted_keys & t & Hal & Hr).
  apply align_Ok_inv in Hal as (first & rest & -> & Hsk & Hfold).
  apply render_table_Ok_inv in Hr as (rows & Hrows & _ & Htab). rewrite Htab in Htr.
  assert (Hkeys : NoDup (dict_keys t)).
  { eapply fold_place_keys_NoDup; [apply rows_width_nil | apply NoDup_nil_2 | exact Hfold]. }
  apply list_elem_of_lookup_1 in Htr as [i Hi].
  destruct (Forall2_lookup_r _ _ _ _ _ Hrows Hi) as ([r row] & Hentry & Hrow).
  apply list_elem_of_lookup_2 in Hentry.
  apply render_row_Ok_inv in Hrow as [_ Hcells]. cbn [snd] in Hcells.
  assert (Hr : r ∈ dict_keys t).
  { apply list_elem_of_fmap. by exists (r, row). }
  apply (fold_place_keys_elem _ _ _ _ _ _ (rows_width_nil _) Hfold) in Hr
    as [Hr|(m & Hm & Hrel)]; [by apply elem_of_nil in Hr|].
  destruct (fold_place_Ok_known _ _ _ _ _ _ Hfold m Hm) as [c Hc].
  pose proof (fold_place_slot _ _ _ _ _ r c Hfold) as Hslot.
  destruct (last (filter _ (first :: rest))) as [m'|] eqn:Hlast.
  - unfold slot in Hslot. rewrite (dict_get_NoDup _ _ _ Hkeys Hentry) in Hslot.
    destruct (row !! c) as [o|] eqn:Hrc; [|done]. cbn in Hslot. subst o.
    destruct (Forall2_lookup_l _ _ _ _ _ Hcells Hrc) as (td & Htd & Hcell).
    apply render_cell_Ok_inv in Hcell as (d & _ & ->).
    eexists. split; [by eapply list_elem_of_lookup_2 | discriminate].
  - exfalso. apply last_None in Hlast.
    assert (Hmem : m ∈ filter (λ m0, m_timestamp m0 - m_timestamp first = r
                                     ∧ make_index_dict sorted_keys !! m_from m0 = Some c)
                          (first :: rest)) by (apply list_elem_of_filter; done).
    rewrite Hlast in Hmem. by apply elem_of_nil in Hmem.
Qed.

Lemma every_row_has_a_message_witness :
  html_dict_to_html_table (sort_messages demo_messages) demo_logs = Ok demo_table
  ∧ ∀ tr, tr ∈ table_rows demo_table →
          ∃ td, td ∈ row_cells tr ∧ td ≠ Elem "td" [] [].
Proof.
  assert (H : html_dict_to_html_table (sort_messages demo_messages) demo_logs
              = Ok demo_table) by (vm_compute; reflexivity).
  split; [exact H|].
  exact (every_row_has_a_message (sort_messages demo_messages) demo_logs demo_table H).
Defined.

(** * Further properties of the driver *)

Section SortedStable.
Context {A K : Type} `{EqDecision K} (lt : K → K → bool) (key : A → K).
Hypothesis lt_irrefl : ∀ a, lt a a = false.

Lemma insert_by_filter_key (x : A) (l : list A) (k : K) :
  filter (λ y, key y = k) (insert_by lt key x l) = filter (λ y, key y = k) (x :: l).
Proof.
  induction l as [|y l IH]; [done|]. cbn [insert_by].
  destruct (lt (key y) (key x)) eqn:Hlt; [|done].
  rewrite (filter_cons _ y), IH, !(filter_cons _ x), (filter_cons _ y).
  destruct (decide (key y = k)) as [Hy|Hy]; [|done].
  destruct (decide (key x = k)) as [Hx|Hx]; [|done].
  rewrite Hy, Hx, lt_irrefl in Hlt. discriminate.
Qed.

(** The sort is stable: elements of equal key keep their order. *)
Lemma sorted_by_stable (l : list A) (k : K) :
  filter (λ y, key y = k) (sorted_by lt key l) = filter (λ y, key y = k) l.
Proof.
  induction l as [|x l IH]; [done|]. cbn [sorted_by].
  by rewrite insert_by_filter_key, !filter_cons, IH.
Qed.

(** A selection that fixes the key sees the elements in their old order. *)
Lemma sorted_by_filter (P : A → Prop) `{!∀ x, Decision (P x)} (l : list A) (k : K) :
  (∀ x, P x → key x = k) → filter P (sorted_by lt key l) = filter P l.
Proof.
  intros HP.
  assert (Hf : ∀ l' : list A, filter P l' = filter P (filter (λ y, key y = k) l')).
  { intros l'. rewrite list_filter_filter. apply list_filter_iff.
    intros x. split; [intros Hx; split; [done | by apply HP] | by intros [? _]]. }
  by rewrite (Hf (sorted_by lt key l)), sorted_by_stable, <- Hf.
Qed.
End SortedStable.

Lemma Sorted_weaken {A : Type} (R1 R2 : A → A → Prop) (l : list A) :
  (∀ a b, R1 a b → R2 a b) → Sorted R1 l → Sorted R2 l.
Proof.
  intros Himp. induction 1 as [|x l Hs IH Hhd]; constructor; [done|].
  destruct Hhd; constructor. by apply Himp.
Qed.

Lemma tuple_ltb_irrefl (a : Z * string) : tuple_ltb a a = false.
Proof.
  unfold tuple_ltb. rewrite Z.eqb_refl. unfold String.ltb.
  pose proof (String.compare_antisym a.2 a.2) as H.
  by destruct (String.compare a.2 a.2).
Qed.

(** Line 155: the sorted list is a rearrangement of the collected
    messages, in non-decreasing order of timestamp, neighbours of equal
    timestamp ordered by the identifier suffix compared as a string, and
    messages of equal timestamp and suffix in their original order. *)
Theorem sort_messages_stable_order (all_messages : list Message) :
  sort_messages all_messages ≡ₚ all_messages
  ∧ StronglySorted Z.le (m_timestamp <$> sort_messages all_messages)
  ∧ Sorted (λ a b, m_timestamp a < m_timestamp b
                   ∨ (m_timestamp a = m_timestamp b
                      ∧ String.ltb (drop_first (m_from b)) (drop_first (m_from a)) = false))
           (sort_messages all_messages)
  ∧ ∀ k, filter (λ m, message_key m = k) (sort_messages all_messages)
         = filter (λ m, message_key m = k) all_messages.
Proof.
  split; [apply sort_messages_perm|].
  split; [apply sort_messages_timestamps|].
  split.
  - eapply Sorted_weaken;
      [|apply (sorted_by_Sorted tuple_ltb message_key tuple_ltb_asym)].
    intros a b. unfold not_after, tuple_ltb, message_key; cbn.
    destruct (Z.eqb_spec (m_timestamp b) (m_timestamp a)) as [Heq|Hne].
    + intros Hs. right. done.
    + intros Hlt. left. lia.
  - intros k. apply sorted_by_stable, tuple_ltb_irrefl.
Qed.


Lemma collect_messages_elem (block_logs : dict string BlockLog) (m : Message) :
  m ∈ collect_messages block_logs ↔
  ∃ entry ms, entry ∈ block_logs ∧ messages entry.2 = Some ms ∧ m ∈ ms.
Proof.
  unfold collect_messages. induction block_logs as [|entry l IH]; cbn.
  - split; [by intros ?%elem_of_nil|].
    intros (? & ? & Hin & _). by apply elem_of_nil in Hin.
  - rewrite elem_of_app, IH. split.
    + intros [Hm|(entry' & ms & Hin & Hms & Hm)].
      * destruct (messages entry.2) as [ms|] eqn:Hms; [|by apply elem_of_nil in Hm].
        exists entry, ms. split; [left | done].
      * exists entry', ms. split; [by right | done].
    + intros (entry' & ms & Hin & Hms & Hm).
      apply elem_of_cons in Hin as [->|Hin]; [left; by rewrite Hms|].
      right. eauto.
Qed.

(** Lines 89-97 after line 155: in the matrix built from the sorted
    messages, rows are relative to the smallest timestamp of the log, and
    every slot holds the message that comes last in the unsorted list
    among those of its worker and timestamp: the sort does not change
    which of two colliding messages survives. *)
Theorem sorted_matrix_keeps_log_order all_messages block_logs sorted_keys (t : Matrix) :
  NoDup (dict_keys block_logs) →
  align (sort_messages all_messages) block_logs = Ok (sorted_keys, t) →
  ∃ first,
    head (sort_messages all_messages) = Some first
    ∧ first ∈ all_messages
    ∧ (∀ m, m ∈ all_messages → m_timestamp first ≤ m_timestamp m)
    ∧ ∀ r c,
        slot t r c =
          last (filter (λ m, m_timestamp m - m_timestamp first = r
                             ∧ sorted_keys !! c = Some (m_from m)) all_messages).
Proof.
  intros Hnd Hal.
  pose proof (sort_messages_timestamps all_messages) as Hts.
  pose proof (sort_messages_perm all_messages) as Hperm.
  apply align_Ok_inv in Hal as (first & rest & Heq & Hsk & Hfold).
  destruct (sort_keys_Ok _ _ Hsk) as [Hp _].
  assert (Hnd' : NoDup sorted_keys) by by rewrite Hp.
  exists first. split; [by rewrite Heq|].
  split. { rewrite <- Hperm, Heq. left. }
  split.
  { intros m Hm. rewrite <- Hperm, Heq in Hm. rewrite Heq in Hts. cbn in Hts.
    apply StronglySorted_cons in Hts as [Hall _]. rewrite Forall_forall in Hall.
    apply elem_of_cons in Hm as [->|Hm]; [lia|].
    apply Hall. by apply list_elem_of_fmap_2. }
  intros r c. rewrite (fold_place_slot _ _ _ _ _ r c Hfold).
  f_equal.
  transitivity (filter (λ m, m_timestamp m - m_timestamp first = r
                             ∧ sorted_keys !! c = Some (m_from m))
                  (sort_messages all_messages)).
  - apply list_filter_iff. intros m. split; intros [Hr Hc]; (split; [done|]).
    + by apply make_index_dict_lookup.
    + by apply make_index_dict_NoDup.
  - apply (sorted_by_filter tuple_ltb message_key tuple_ltb_irrefl _ _
             (r + m_timestamp first, drop_first (default ""%string (sorted_keys !! c)))).
    intros m [Hr Hc]. unfold message_key. rewrite Hc. cbn. f_equal. lia.
Qed.

Lemma sorted_matrix_keeps_log_order_witness :
  ∃ first,
    head (sort_messages demo_messages) = Some first
    ∧ first ∈ demo_messages
    ∧ (∀ m, m ∈ demo_messages → m_timestamp first ≤ m_timestamp m)
    ∧ ∀ r c,
        slot demo_alignment.2 r c =
          last (filter (λ m, m_timestamp m - m_timestamp first = r
                             ∧ demo_alignment.1 !! c = Some (m_from m)) demo_messages).
Proof.
  apply (sorted_matrix_keeps_log_order demo_messages demo_logs
           demo_alignment.1 demo_alignment.2).
  - apply (bool_decide_unpack _). vm_compute. exact I.
  - vm_compute. reflexivity.
Defined.

(** Lines 149-164 on a block log with messages.  [main] raises before
    anything is written exactly when the block-analysis file is not well
    formed (an identifier without integer suffix, or a message of an
    unknown worker).  Otherwise report.html is written first, with the
    table of the sorted messages, whatever the graph tooling does then.
    [main] returns normally exactly when, in addition, the three calls of
    the graph tooling complete; its effects are then the report, the
    graph description, the graph image and the opening of the report, in
    this order. *)
Theorem main_report_before_graph (fs : Files) :
  NoDup (dict_keys (block_analysis fs)) →
  collect_messages (block_analysis fs) ≠ [] →
  let well_formed :=
    (∀ k, k ∈ dict_keys (block_analysis fs) → ∃ n, suffix_key k = Ok n)
    ∧ (∀ m, m ∈ collect_messages (block_analysis fs) →
            m_from m ∈ dict_keys (block_analysis fs)) in
  let g := build_graph (summary fs) in
  (¬ well_formed ↔ ∃ e, main fs = ([], Raise e))
  ∧ (well_formed ↔
     ∃ table rest,
       html_dict_to_html_table (sort_messages (collect_messages (block_analysis fs)))
         (block_analysis fs) = Ok table
       ∧ (main fs).1 =
           WriteFile "report.html" (Report (table_html fs) table (table_css fs)) :: rest)
  ∧ ((main fs).2 = Ok () ↔
     well_formed
     ∧ write_dot (graph_tools fs) g = Ok ()
     ∧ graph_from_dot_file (graph_tools fs) g = Ok ()
     ∧ write_png (graph_tools fs) g = Ok ())
  ∧ ((main fs).2 = Ok () →
     ∃ table,
       (main fs).1 =
         [WriteFile "report.html" (Report (table_html fs) table (table_css fs));
          WriteFile "graph.dot" (GraphDot g);
          WriteFile "graph.png" (GraphPng g);
          OpenBrowser "report.html"]).
Proof.
  intros Hnd Hne well_formed g.
  pose proof (sort_messages_perm (collect_messages (block_analysis fs))) as Hperm.
  assert (Hwf : well_formed ↔
    ∃ table, html_dict_to_html_table
               (sort_messages (collect_messages (block_analysis fs)))
               (block_analysis fs) = Ok table).
  { split.
    - intros [Hparse Hfrom]. apply html_dict_to_html_table_total; try done.
      + intros Hnil. rewrite Hnil in Hperm. by apply Permutation_nil in Hperm.
      + intros m Hm. apply Hfrom. by rewrite <- Hperm.
    - intros [table Ht]. apply table_Ok_well_formed in Ht as (_ & Hparse & Hfrom).
      split; [done|]. intros m Hm. apply Hfrom. by rewrite Hperm. }
  assert (Hmain : main fs =
    match html_dict_to_html_table (sort_messages (collect_messages (block_analysis fs)))
            (block_analysis fs) with
    | Raise e => ([], Raise e)
    | Ok table =>
        match visualize fs with
        | (written, Raise e) =>
            (WriteFile "report.html" (Report (table_html fs) table (table_css fs))
               :: written, Raise e)
        | (written, Ok _) =>
            (WriteFile "report.html" (Report (table_html fs) table (table_css fs))
               :: written ++ [OpenBrowser "report.html"], Ok ())
        end
    end).
  { unfold main. by destruct (collect_messages (block_analysis fs)). }
  rewrite Hmain. unfold visualize. fold g.
  destruct (html_dict_to_html_table _ _) as [table|e] eqn:Ht.
  - assert (Hw : well_formed) by (apply Hwf; eauto).
    destruct (write_dot (graph_tools fs) g) as [[]|e1];
      destruct (graph_from_dot_file (graph_tools fs) g) as [[]|e2];
      destruct (write_png (graph_tools fs) g) as [[]|e3]; cbn;
      (split; [split; [done | intros [e [=]]]|]);
      (split; [split; [intros _; eauto | done]|]);
      (split; [split; [try done; intros _; done
                      | intros (_ & H1 & H2 & H3); try done]|]);
      try done; intros _; eauto.
  - assert (Hw : ¬ well_formed) by (intros [table [=]]%Hwf).
    cbn. split; [split; [eauto | done]|].
    split; [split; [done | intros (table & rest & [=] & _)]|].
    split; [split; [done | intros [? _]; done] | done].
Qed.

Lemma main_report_before_graph_witness :
  (main demo_files).2 = Ok ()
  ∧ ∃ table,
      (main demo_files).1 =
        [WriteFile "report.html"
           (Report (table_html demo_files) table (table_css demo_files));
         WriteFile "graph.dot" (GraphDot (build_graph (summary demo_files)));
         WriteFile "graph.png" (GraphPng (build_graph (summary demo_files)));
         OpenBrowser "report.html"].
Proof.
  assert (Hnd : NoDup (dict_keys (block_analysis demo_files)))
    by (apply (bool_decide_unpack _); vm_compute; exact I).
  assert (Hne : collect_messages (block_analysis demo_files) ≠ [])
    by (vm_compute; discriminate).
  destruct (main_report_before_graph demo_files Hnd Hne) as (_ & _ & H3 & H4).
  assert (Hok : (main demo_files).2 = Ok ()).
  { apply H3. split; [|repeat split; reflexivity]. split.
    - intros k Hk. change (k ∈ ["B10"; "B2"; "B1"]%string) in Hk.
      repeat (apply elem_of_cons in Hk as [->|Hk]);
        [eexists; vm_compute; reflexivity .. | by apply elem_of_nil in Hk].
    - apply Forall_forall. apply (bool_decide_unpack _). vm_compute. exact I. }
  split; [exact Hok | exact (H4 Hok)].
Defined.

(** When reading the graph description back fails (line 140), the report
    and the description are on disk, the image is not, the browser is not
    opened and the run ends with the exception. *)
Example main_graph_read_fails :
  let tools := {| write_dot := λ _, Ok ();
                  graph_from_dot_file := λ _, Raise (OtherError "TypeError");
                  write_png := λ _, Ok () |} in
  let fs := {| block_analysis := demo_logs; summary := demo_logs;
               table_html := ""; table_css := ""; graph_tools := tools |} in
  main fs =
    ([WriteFile "report.html" (Report "" demo_table "");
      WriteFile "graph.dot" (GraphDot (build_graph demo_logs))],
     Raise (OtherError "TypeError"))
  ∧ exit_status (main fs).2 = 1.
Proof. split; vm_compute; reflexivity. Qed.

(** * Further properties of the table renderer: column order *)

(** Line 91 and 98: a worker whose numeric suffix is smaller stands in a
    column further left ("B2" before "B10"). *)
Theorem smaller_suffix_further_left all_messages block_logs table :
  html_dict_to_html_table all_messages block_logs = Ok table →
  ∀ i j ki kj ni nj,
    table_headers table !! S i = Some ki →
    table_headers table !! S j = Some kj →
    suffix_key ki = Ok ni → suffix_key kj = Ok nj →
    ni < nj → (i < j)%nat.
Proof.
  intros H i j ki kj ni nj Hi Hj Hni Hnj Hlt.
  destruct (table_columns _ _ _ H) as (sorted_keys & suffixes & Hh & _ & Hsuf & Hs & _).
  rewrite Hh in Hi, Hj. cbn in Hi, Hj.
  destruct (Forall2_lookup_l _ _ _ _ _ Hsuf Hi) as (ni' & Hi' & Hni').
  destruct (Forall2_lookup_l _ _ _ _ _ Hsuf Hj) as (nj' & Hj' & Hnj').
  assert (ni' = ni) as -> by congruence. assert (nj' = nj) as -> by congruence.
  destruct (decide (i < j)%nat) as [|Hge]; [done|]. exfalso.
  destruct (decide (i = j)) as [->|Hne]; [rewrite Hi' in Hj'; injection Hj' as ->; lia|].
  assert (nj ≤ ni); [|lia].
  eapply (StronglySorted_lookup_lt Z.le suffixes j i); [done | lia | done | done].
Qed.

Lemma smaller_suffix_further_left_witness :
  table_headers demo_table !! 2%nat = Some "B2"%string
  ∧ table_headers demo_table !! 3%nat = Some "B10"%string
  ∧ (1 < 2)%nat.
Proof.
  split; [vm_compute; reflexivity|]. split; [vm_compute; reflexivity|].
  apply (smaller_suffix_further_left (sort_messages demo_messages) demo_logs demo_table
           ltac:(vm_compute; reflexivity) 1%nat 2%nat "B2"%string "B10"%string 2 10).
  - vm_compute. reflexivity.
  - vm_compute. reflexivity.
  - vm_compute. reflexivity.
  - vm_compute. reflexivity.
  - lia.
Defined.

(** * Further properties of the topology grapher *)

Lemma add_edge_known (u v : string) (g : DiGraph) :
  u ∈ dict_keys (g_nodes g) → v ∈ dict_keys (g_nodes g) →
  g_nodes (add_edge u v g) = g_nodes g.
Proof.
  intros Hu Hv. unfold add_edge, dict_mem.
  apply dict_get_is_Some in Hu as [a Ha]. apply dict_get_is_Some in Hv as [b Hb].
  rewrite Ha. cbn. by rewrite Hb.
Qed.

(** Lines 133-136 when every edge joins two nodes that exist already. *)
Lemma add_all_edges_closed (l : dict string BlockLog) (g : DiGraph) :
  (∀ entry succs s, entry ∈ l → successors entry.2 = Some succs → s ∈ succs →
                    entry.1 ∈ dict_keys (g_nodes g) ∧ s ∈ dict_keys (g_nodes g)) →
  g_nodes (foldl (λ g entry,
                    match successors entry.2 with
                    | Some succs => foldl (λ g successor, add_edge entry.1 successor g) g succs
                    | None => g
                    end) g l) = g_nodes g.
Proof.
  revert g. induction l as [|entry l IH]; intros g Hclosed; [done|]. cbn [foldl].
  assert (Hinner : ∀ succs g',
    g_nodes g' = g_nodes g →
    (∀ s, s ∈ succs → entry.1 ∈ dict_keys (g_nodes g) ∧ s ∈ dict_keys (g_nodes g)) →
    g_nodes (foldl (λ g successor, add_edge entry.1 successor g) g' succs) = g_nodes g).
  { induction succs as [|s succs IHs]; intros g' Hg' Hs; [done|]. cbn [foldl].
    apply IHs.
    - destruct (Hs s) as [Hu Hv]; [left|].
      rewrite add_edge_known; [done | by rewrite Hg' | by rewrite Hg'].
    - intros s' Hs'. apply Hs. by right. }
  set (g1 := match successors entry.2 with
             | Some succs => foldl (λ g successor, add_edge entry.1 successor g) g succs
             | None => g
             end).
  assert (Hg1 : g_nodes g1 = g_nodes g).
  { subst g1. destruct (successors entry.2) as [succs|] eqn:Hs; [|done].
    apply Hinner; [done|]. intros s Hin. apply (Hclosed entry succs s); [left | done | done]. }
  rewrite IH; [done|].
  intros entry' succs s Hin Hs Hs'. rewrite Hg1.
  apply (Hclosed entry' succs s); [by right | done | done].
Qed.

(** Lines 129-136: when every declared successor is itself a worker, the
    nodes of the graph are exactly the workers, in the order of the file,
    each with its box shape and its label; adding the edges creates no
    node and changes no attribute. *)
Theorem graph_nodes_are_the_workers (block_logs : dict string BlockLog) :
  NoDup (dict_keys block_logs) →
  (∀ u infos succs v,
     dict_get u block_logs = Some infos → successors infos = Some succs → v ∈ succs →
     v ∈ dict_keys block_logs) →
  g_nodes (build_graph block_logs) =
    (λ entry, (entry.1, [("shape", "box"); ("label", node_label entry.1 entry.2)]%string))
      <$> block_logs.
Proof.
  intros Hnd Hclosed. unfold build_graph.
  rewrite add_nodes_spec; [|done|intros k _ Hk; by apply elem_of_nil in Hk].
  rewrite add_all_edges_closed; [done|]. cbn [g_nodes app empty_graph].
  assert (Hkeys : dict_keys ((λ entry : string * BlockLog, (entry.1, node_attrs entry))
                               <$> block_logs) = dict_keys block_logs).
  { unfold dict_keys. by rewrite <- list_fmap_compose. }
  intros [u infos] succs s Hin Hs Hs'. rewrite Hkeys. cbn [fst snd] in *. split.
  - apply list_elem_of_fmap. by exists (u, infos).
  - eapply (Hclosed u infos succs s); [by apply dict_get_NoDup | done | done].
Qed.

Lemma graph_nodes_are_the_workers_witness :
  g_nodes (build_graph demo_logs) =
    (λ entry, (entry.1, [("shape", "box"); ("label", node_label entry.1 entry.2)]%string))
      <$> demo_logs.
Proof.
  apply (graph_nodes_are_the_workers demo_logs).
  - apply (bool_decide_unpack _). vm_compute. exact I.
  - intros u infos succs v Hget Hs Hv.
    apply dict_get_elem_of in Hget. unfold demo_logs in Hget.
    apply elem_of_cons in Hget as [Heq|Hget].
    { injection Heq as -> ->. cbn in Hs. injection Hs as <-.
      apply list_elem_of_singleton in Hv as ->.
      apply (bool_decide_unpack _). vm_compute. exact I. }
    apply elem_of_cons in Hget as [Heq|Hget].
    { injection Heq as -> ->. cbn in Hs. injection Hs as <-. by apply elem_of_nil in Hv. }
    apply elem_of_cons in Hget as [Heq|Hget].
    { injection Heq as -> ->. discriminate Hs. }
    by apply elem_of_nil in Hget.
Defined.

Lemma add_missing_node_get (n k : string) (g : DiGraph) (a : dict string string) :
  dict_get k (g_nodes (if dict_mem n (g_nodes g) then g else add_node n [] g)) = Some a →
  dict_get k (g_nodes g) = Some a ∨ a = [].
Proof.
  unfold dict_mem. destruct (dict_get n (g_nodes g)) eqn:Hn; [by left|].
  cbn. rewrite Hn. cbn. destruct (decide (n = k)) as [->|Hne].
  - rewrite dict_get_set_eq. intros [= <-]. by right.
  - rewrite dict_get_set_ne by done. by left.
Qed.

Lemma fold_edges_preserve (Inv : DiGraph → Prop) :
  (∀ u v g, Inv g → Inv (add_edge u v g)) →
  ∀ (l : dict string BlockLog) g,
    Inv g →
    Inv (foldl (λ g entry,
                  match successors entry.2 with
                  | Some succs => foldl (λ g successor, add_edge entry.1 successor g) g succs
                  | None => g
                  end) g l).
Proof.
  intros Hstep. induction l as [|entry l IH]; intros g Hg; [done|]. cbn [foldl].
  apply IH. destruct (successors entry.2) as [succs|]; [|done].
  clear IH. revert g Hg. induction succs as [|s succs IHs]; intros g Hg; [done|].
  cbn [foldl]. by apply IHs, Hstep.
Qed.

(** Lines 133-136: every edge starts at a worker and ends at a node of
    the graph; an end point that is not a worker is a node that
    [add_edge] created, without shape and without label. *)
Theorem graph_edge_end_points (block_logs : dict string BlockLog) :
  NoDup (dict_keys block_logs) →
  ∀ u v, (u, v) ∈ g_edges (build_graph block_logs) →
         u ∈ dict_keys block_logs
         ∧ v ∈ dict_keys (g_nodes (build_graph block_logs))
         ∧ (v ∉ dict_keys block_logs →
            dict_get v (g_nodes (build_graph block_logs)) = Some []).
Proof.
  intros Hnd u v Huv.
  set (nodes := (λ entry : string * BlockLog, (entry.1, node_attrs entry)) <$> block_logs).
  assert (Hkeys : dict_keys nodes = dict_keys block_logs).
  { subst nodes. unfold dict_keys. by rewrite <- list_fmap_compose. }
  assert (Hg : build_graph block_logs = foldl (λ g entry,
                     match successors entry.2 with
                     | Some succs => foldl (λ g successor, add_edge entry.1 successor g) g succs
                     | None => g
                     end) {| g_nodes := nodes; g_edges := [] |} block_logs).
  { unfold build_graph. rewrite add_nodes_spec; [done | done |].
    intros k _ Hk. by apply elem_of_nil in Hk. }
  set (Inv := λ g : DiGraph,
    (∀ k a, dict_get k (g_nodes g) = Some a → k ∈ dict_keys block_logs ∨ a = [])
    ∧ (∀ a b, (a, b) ∈ g_edges g → b ∈ dict_keys (g_nodes g))).
  assert (HInv : Inv (build_graph block_logs)).
  { rewrite Hg. apply fold_edges_preserve.
    - intros a b g [HP HQ]. split.
      + intros k attrs Hk. unfold add_edge in Hk. cbn [g_nodes] in Hk.
        apply add_missing_node_get in Hk as [Hk| ->]; [|by right].
        apply add_missing_node_get in Hk as [Hk| ->]; [by eapply HP | by right].
      + intros x y Hxy. apply add_edge_keys. apply add_edge_edges in Hxy as [Hxy|[= -> ->]].
        * left. by eapply HQ.
        * right. by right.
    - split; cbn.
      + intros k a Hk. left. rewrite <- Hkeys. apply dict_get_is_Some. eauto.
      + intros a b Hab. by apply elem_of_nil in Hab. }
  destruct HInv as [HP HQ].
  split.
  - rewrite Hg in Huv.
    destruct (add_all_edges_spec block_logs {| g_nodes := nodes; g_edges := [] |})
      as (_ & He & _).
    apply He in Huv as [Huv|([k infos] & succs & s & Hin & _ & _ & [= -> ->])];
      [by apply elem_of_nil in Huv|].
    apply list_elem_of_fmap. by exists (k, infos).
  - split; [by eapply HQ|].
    intros Hnot. pose proof (HQ _ _ Huv) as Hv.
    apply dict_get_is_Some in Hv as [a Ha]. rewrite Ha.
    destruct (HP _ _ Ha) as [?| ->]; done.
Qed.

Lemma graph_edge_end_points_witness :
  let logs := [("B0"%string, {| predecessors := None;
                                successors := Some ["B7"; "B7"]%string;
                                code := []; messages := None |})] in
  "B0"%string ∈ dict_keys logs
  ∧ "B7"%string ∈ dict_keys (g_nodes (build_graph logs))
  ∧ ("B7"%string ∉ dict_keys logs → dict_get "B7"%string (g_nodes (build_graph logs)) = Some []).
Proof.
  intros logs. apply (graph_edge_end_points logs).
  - apply (bool_decide_unpack _). vm_compute. exact I.
  - apply (bool_decide_unpack _). vm_compute. exact I.
Defined.

(** * Every message has its place in the table *)

(** Lines 95-121: for every message of the list, the row of its relative
    time has a populated cell in the column headed by its worker (the
    cell of the message itself, or of the message that replaced it). *)
Theorem every_message_has_a_cell all_messages block_logs table :
  html_dict_to_html_table all_messages block_logs = Ok table →
  ∃ first,
    head all_messages = Some first
    ∧ ∀ m, m ∈ all_messages →
           ∃ tr c td,
             tr ∈ table_rows table
             ∧ row_time tr = Some (str_of_int (m_timestamp m - m_timestamp first))
             ∧ table_headers table !! S c = Some (m_from m)
             ∧ row_cells tr !! c = Some td
             ∧ td ≠ Elem "td" [] [].
Proof.
  intros H.
  apply html_dict_to_html_table_Ok_inv in H as (sorted_keys & t & Hal & Hr).
  apply align_Ok_inv in Hal as (first & rest & -> & Hsk & Hfold).
  apply render_table_Ok_inv in Hr as (rows & Hrows & Hh & Htab).
  exists first. split; [done|]. intros m Hm.
  set (r := m_timestamp m - m_timestamp first).
  destruct (fold_place_Ok_known _ _ _ _ _ _ Hfold m Hm) as [c Hc].
  assert (Hr : r ∈ dict_keys t).
  { apply (fold_place_keys_elem _ _ _ _ _ _ (rows_width_nil _) Hfold). right. eauto. }
  apply dict_get_is_Some in Hr as [row Hrow].
  pose proof (fold_place_slot _ _ _ _ _ r c Hfold) as Hslot.
  unfold slot in Hslot. rewrite Hrow in Hslot.
  destruct (last (filter _ (first :: rest))) as [m'|] eqn:Hlast.
  - destruct (row !! c) as [o|] eqn:Hrc; [|done]. cbn in Hslot. subst o.
    apply dict_get_elem_of, list_elem_of_lookup_1 in Hrow as [i Hi].
    destruct (Forall2_lookup_l _ _ _ _ _ Hrows Hi) as (tr & Htr & Hrender).
    apply render_row_Ok_inv in Hrender as [Htime Hcells]. cbn [fst snd] in *.
    destruct (Forall2_lookup_l _ _ _ _ _ Hcells Hrc) as (td & Htd & Hcell).
    apply render_cell_Ok_inv in Hcell as (d & _ & ->).
    exists tr, c, (Elem "td" [("class"%string,
                               default "normal"%string (type_to_klass !! m_type m'))] d).
    split; [rewrite Htab; by eapply list_elem_of_lookup_2|].
    split; [done|].
    split; [rewrite Hh; cbn; by apply make_index_dict_lookup|].
    split; [done | discriminate].
  - exfalso. apply last_None in Hlast.
    assert (Hmem : m ∈ filter (λ m0, m_timestamp m0 - m_timestamp first = r
                                     ∧ make_index_dict sorted_keys !! m_from m0 = Some c)
                          (first :: rest)) by (apply list_elem_of_filter; done).
    rewrite Hlast in Hmem. by apply elem_of_nil in Hmem.
Qed.

Lemma every_message_has_a_cell_witness :
  ∃ first,
    head (sort_messages demo_messages) = Some first
    ∧ ∀ m, m ∈ sort_messages demo_messages →
           ∃ tr c td,
             tr ∈ table_rows demo_table
             ∧ row_time tr = Some (str_of_int (m_timestamp m - m_timestamp first))
             ∧ table_headers demo_table !! S c = Some (m_from m)
             ∧ row_cells tr !! c = Some td
             ∧ td ≠ Elem "td" [] [].
Proof.
  apply (every_message_has_a_cell (sort_messages demo_messages) demo_logs demo_table).
  vm_compute. reflexivity.
Defined.
